(** * inventory_agent: the item store and the rule-based command parser

    A shallow embedding of [src/inventory/store.py] (class [Store]) and of
    [src/inventory/agent.py] (function [_rule_based_parse] and its
    extraction helpers), with the properties the specification states
    about them.

    Modelling conventions.
    - A Python [str] is a [string] of code points below 256 (texts with
      other code points are outside the model); code points compare as
      SQLite's BINARY collation does.
    - A Python [int] is a [Z]. An INTEGER parameter of a statement has to
      fit a signed 64-bit word: [sqlite3] raises [OverflowError] when it
      binds any other. [int(s)] raises [ValueError] on more than 4300
      digits ([sys.int_info.default_max_str_digits]), and so does the
      formatting of an [int] of more than 4300 digits in an f-string.
    - A Python [float] / SQLite REAL is a rational [Q]: NaN and the
      infinities are outside the model. The store only compares a price
      with zero and stores it; the parser reads a decimal numeral, whose
      exact value is kept (the rounding of [float(s)] to a double is not
      modelled).
    - [time.strftime] reads the wall clock: the text it returns is an
      argument [now] of every operation that calls it.
    - A raised exception is a value of [exn]; [with self._conn() as conn]
      commits on normal exit and rolls back on an exception. *)

From Stdlib Require Import ZArith QArith Ascii String List Lia.
From stdpp Require Import gmap strings list fin_maps sorting.

Local Open Scope Z_scope.

(** ** Exceptions *)

(** The texts of the [ValueError]s raised by [Store], and the one of
    the conversions between [int] and [str]. *)
Inductive message :=
| AlreadyExists (sku : string)            (* "SKU '..' already exists. Use update instead." *)
| NotFound (sku : string)                 (* "SKU '..' not found." *)
| CannotSubtract (qty current : Z)        (* "Cannot subtract ..; only .. in stock." *)
| QuantityNonneg                          (* "Quantity must be >= 0" *)
| PriceNonneg                             (* "Price must be >= 0" *)
| ExceedsDigitLimit.                      (* "Exceeds the limit (4300 digits) for integer string conversion" *)

(** The constraints of [SCHEMA] whose violation SQLite reports. *)
Inductive constraint :=
| UniqueSku                               (* sku TEXT PRIMARY KEY *)
| CheckQuantity                           (* CHECK(quantity >= 0) *)
| CheckPrice.                             (* CHECK(price >= 0) *)

(** The texts of the [AgentParseError]s raised by [_rule_based_parse]. *)
Inductive parse_message :=
| SkuNotFoundAdd                          (* "SKU not found; try '... with sku ABC123'" *)
| SkuNotFoundSubtract                     (* "SKU not found for subtract." *)
| SkuNotFoundUpdate                       (* "SKU not found for update." *)
| NothingToUpdate                         (* "Nothing to update (provide name/quantity/price)" *)
| SkuNotFoundDelete                       (* "SKU not found for delete." *)
| NotRecognized.                          (* "Action not recognized. Try: add / subtract / update / delete." *)

Inductive exn :=
| ValueError (m : message)
| IntegrityError (c : constraint)         (* sqlite3.IntegrityError *)
| AgentParseError (m : parse_message)
| OverflowError.                          (* "Python int too large to convert to SQLite INTEGER" *)

Inductive result (A : Type) :=
| Ok (a : A)
| Raise (e : exn).
Arguments Ok {A} a.
Arguments Raise {A} e.

Definition result_bind {A B} (r : result A) (k : A -> result B) : result B :=
  match r with
  | Ok a => k a
  | Raise e => Raise e
  end.

Notation "'let?' x := r 'in' k" := (result_bind r (fun x => k))
  (at level 10, x name, r at level 100, k at level 200).

(** ** The table [items] *)

Definition timestamp := string.

(** A row as [get_item] and [list_items] return it. *)
Record item := Item {
  sku : string;
  name : string;
  quantity : Z;
  price : Q;
  updated_at : timestamp
}.

(** The columns of a row other than its primary key. *)
Record cells := Cells {
  c_name : string;
  c_quantity : Z;
  c_price : Q;
  c_updated_at : timestamp
}.

(** The table maps the primary key [sku] to the other columns. *)
Abbreviation table := (gmap string cells).

Definition as_item (k : string) (c : cells) : item :=
  Item k (c_name c) (c_quantity c) (c_price c) (c_updated_at c).

(** [price >= 0] on REAL values, and Python's [price < 0]. *)
Definition price_nonneg (p : Q) : bool := Qle_bool 0 p.
Definition price_neg (p : Q) : bool := negb (Qle_bool 0 p).

(** ** Statements on a connection

    A statement runs on the connection's view of the table and either
    returns a value and the new view or raises. *)

Definition conn (A : Type) := table -> result A * table.

Definition ret {A} (a : A) : conn A := fun db => (Ok a, db).
Definition raise {A} (e : exn) : conn A := fun db => (Raise e, db).
Definition bind {A B} (m : conn A) (k : A -> conn B) : conn B :=
  fun db => match m db with
            | (Ok a, db') => k a db'
            | (Raise e, db') => (Raise e, db')
            end.

Notation "'let*' x := m 'in' k" := (bind m (fun x => k))
  (at level 10, x name, m at level 100, k at level 200).
Notation "m >> k" := (bind m (fun _ => k))
  (at level 100, k at level 200, right associativity).

(** [with self._conn() as conn: body]: commit when [body] returns, roll
    back when it raises. *)
Definition with_conn {A} (body : conn A) : conn A :=
  fun db => match body db with
            | (Ok a, db') => (Ok a, db')
            | (Raise e, _) => (Raise e, db)
            end.

(** [SELECT .. FROM items WHERE sku=?] followed by [fetchone()]. *)
Definition select (k : string) : conn (option cells) :=
  fun db => (Ok (db !! k), db).

(** An [int] that [sqlite3] can bind as a parameter: it fits SQLite's
    signed 64-bit INTEGER. *)
Definition fits_integer (n : Z) : bool := (- 2 ^ 63 <=? n) && (n <? 2 ^ 63).

(** [INSERT INTO items (sku, name, quantity, price, updated_at) VALUES ..]:
    the parameters are bound before the statement runs, and SQLite
    tests the CHECK constraints, in the order of the columns, before the
    primary key. *)
Definition insert_row (k : string) (c : cells) : conn unit :=
  fun db =>
    if negb (fits_integer (c_quantity c)) then (Raise OverflowError, db)
    else if c_quantity c <? 0 then (Raise (IntegrityError CheckQuantity), db)
    else if negb (price_nonneg (c_price c)) then (Raise (IntegrityError CheckPrice), db)
    else match db !! k with
         | Some _ => (Raise (IntegrityError UniqueSku), db)
         | None => (Ok tt, <[k := c]> db)
         end.

(** One [column=?] of an UPDATE with its parameter. *)
Inductive assignment :=
| SetName (v : string)
| SetQuantity (v : Z)
| SetPrice (v : Q)
| SetUpdatedAt (v : timestamp).

Definition assign (c : cells) (a : assignment) : cells :=
  match a with
  | SetName v => Cells v (c_quantity c) (c_price c) (c_updated_at c)
  | SetQuantity v => Cells (c_name c) v (c_price c) (c_updated_at c)
  | SetPrice v => Cells (c_name c) (c_quantity c) v (c_updated_at c)
  | SetUpdatedAt v => Cells (c_name c) (c_quantity c) (c_price c) v
  end.

(** The CHECK constraint on the column an assignment writes. *)
Definition violated (a : assignment) : option constraint :=
  match a with
  | SetQuantity v => if v <? 0 then Some CheckQuantity else None
  | SetPrice v => if price_nonneg v then None else Some CheckPrice
  | _ => None
  end.

Fixpoint first_violation (fields : list assignment) : option constraint :=
  match fields with
  | [] => None
  | a :: fields' =>
      match violated a with
      | Some c => Some c
      | None => first_violation fields'
      end
  end.

(** The parameter of an assignment can be bound. *)
Definition bindable (a : assignment) : bool :=
  match a with
  | SetQuantity v => fits_integer v
  | _ => true
  end.

(** [UPDATE items SET fields WHERE sku=?]: the parameters are bound
    before the statement runs; no row matches, nothing happens; the
    constraints of the written columns are checked on the new values (on
    a table that satisfies [SCHEMA] these are the only ones that can
    fail). [fields] is in the order of the columns, as [Store] builds
    it, which is the order SQLite tests the constraints in. *)
Definition update_row (fields : list assignment) (k : string) : conn unit :=
  fun db =>
    if negb (forallb bindable fields) then (Raise OverflowError, db) else
    match db !! k with
    | None => (Ok tt, db)
    | Some c =>
        match first_violation fields with
        | Some v => (Raise (IntegrityError v), db)
        | None => (Ok tt, <[k := fold_left assign fields c]> db)
        end
    end.

(** [DELETE FROM items WHERE sku=?]. *)
Definition delete_row (k : string) : conn unit :=
  fun db => (Ok tt, delete k db).

(** An [int] an f-string can write in decimal: it has at most 4300
    digits ([sys.int_info.default_max_str_digits]). *)
Definition digit_limit : Z := 10 ^ 4300.

Definition printable (n : Z) : bool := Z.abs n <? digit_limit.

(** ** class Store *)

Module Store.

(** [f"Cannot subtract {qty}; only {current} in stock."], the argument
    of the [ValueError]; the formatting itself raises a [ValueError] on
    an [int] that is not printable. *)
Definition cannot_subtract (qty current : Z) : message :=
  if printable qty && printable current then CannotSubtract qty current
  else ExceedsDigitLimit.

(** [add_item(sku, name, quantity, price)]; [now] is the clock reading of
    its first line. *)
Definition add_item (now : timestamp) (sku name : string) (quantity : Z) (price : Q)
  : conn unit :=
  with_conn (
    let* cur := select sku in
    match cur with
    | Some _ => raise (ValueError (AlreadyExists sku))
    | None => insert_row sku (Cells name quantity price now)
    end).

(** [subtract_quantity(sku, qty)]; returns the new quantity. *)
Definition subtract_quantity (now : timestamp) (sku : string) (qty : Z) : conn Z :=
  with_conn (
    let* row := select sku in
    match row with
    | None => raise (ValueError (NotFound sku))
    | Some r =>
        let current := c_quantity r in
        if current <? qty then raise (ValueError (cannot_subtract qty current))
        else
          let new_q := current - qty in
          update_row [SetQuantity new_q; SetUpdatedAt now] sku >>
          ret new_q
    end).

(** The [fields]/[params] lists [update_item] builds, in the order it
    builds them, or the [ValueError] it raises on the way. *)
Definition update_fields (now : timestamp) (name : option string)
    (quantity : option Z) (price : option Q) : result (list assignment) :=
  let fields := [] in
  let fields := match name with
                | Some n => fields ++ [SetName n]
                | None => fields
                end in
  let? fields := match quantity with
                 | Some q => if q <? 0 then Raise (ValueError QuantityNonneg)
                             else Ok (fields ++ [SetQuantity q])
                 | None => Ok fields
                 end in
  let? fields := match price with
                 | Some p => if price_neg p then Raise (ValueError PriceNonneg)
                             else Ok (fields ++ [SetPrice p])
                 | None => Ok fields
                 end in
  Ok (fields ++ [SetUpdatedAt now]).

(** [update_item(sku, name=None, quantity=None, price=None)]. *)
Definition update_item (now : timestamp) (sku : string) (name : option string)
    (quantity : option Z) (price : option Q) : conn unit :=
  match name, quantity, price with
  | None, None, None => ret tt
  | _, _, _ =>
      with_conn (
        let* cur := select sku in
        match cur with
        | None => raise (ValueError (NotFound sku))
        | Some _ =>
            match update_fields now name quantity price with
            | Raise e => raise e
            | Ok fields => update_row fields sku
            end
        end)
  end.

(** [add_or_update(sku, name, quantity, price)]: [now] is the clock
    reading of [add_item], [now'] the one of [update_item]. Only a
    [ValueError] is caught. *)
Definition add_or_update (now now' : timestamp) (sku name : string)
    (quantity : Z) (price : Q) : conn unit :=
  fun db =>
    match add_item now sku name quantity price db with
    | (Raise (ValueError _), db') =>
        update_item now' sku (Some name) (Some quantity) (Some price) db'
    | r => r
    end.

(** [delete_item(sku)]. *)
Definition delete_item (sku : string) : conn unit :=
  with_conn (
    let* cur := select sku in
    match cur with
    | None => raise (ValueError (NotFound sku))
    | Some _ => delete_row sku
    end).

(** [ORDER BY sku]: rows in ascending order of the key. *)
Definition sku_le (x y : string * cells) : Prop :=
  String.leb (fst x) (fst y) = true.

#[local] Instance sku_le_dec x y : Decision (sku_le x y) :=
  decide (String.leb (fst x) (fst y) = true).

(** [list_items()]. *)
Definition list_items : conn (list item) :=
  with_conn (fun db =>
    (Ok ((fun kc => as_item (fst kc) (snd kc)) <$>
           merge_sort sku_le (map_to_list db)), db)).

(** [get_item(sku)]; [None] when no row has that key. *)
Definition get_item (sku : string) : conn (option item) :=
  with_conn (
    let* r := select sku in
    match r with
    | None => ret None
    | Some c => ret (Some (as_item sku c))
    end).

End Store.

(** ** Histories of the store

    The mutating calls a client can make, each with the clock readings it
    consumes, and the table they leave behind whether they return or
    raise. *)

Inductive operation :=
| AddItem (now : timestamp) (sku name : string) (quantity : Z) (price : Q)
| AddOrUpdate (now now' : timestamp) (sku name : string) (quantity : Z) (price : Q)
| SubtractQuantity (now : timestamp) (sku : string) (qty : Z)
| UpdateItem (now : timestamp) (sku : string) (name : option string)
    (quantity : option Z) (price : option Q)
| DeleteItem (sku : string).

Definition perform (db : table) (o : operation) : table :=
  match o with
  | AddItem now k n q p => snd (Store.add_item now k n q p db)
  | AddOrUpdate now now' k n q p => snd (Store.add_or_update now now' k n q p db)
  | SubtractQuantity now k q => snd (Store.subtract_quantity now k q db)
  | UpdateItem now k n q p => snd (Store.update_item now k n q p db)
  | DeleteItem k => snd (Store.delete_item k db)
  end.

(** The table after a sequence of calls on the empty store. *)
Definition history (ops : list operation) : table := fold_left perform ops ∅.

(** A table of one row, to run the operations on. *)
Definition apples : table := {["A1"%string := Cells "Apples" 5 (3 # 2) "t0"]}.

(** Every stored row satisfies [SCHEMA]: its quantity is an INTEGER that
    is not negative, and its price is not negative. *)
Definition table_ok (db : table) : Prop :=
  forall k c, db !! k = Some c ->
    0 <= c_quantity c < 2 ^ 63 /\ (0 <= c_price c)%Q.

(** The exception a call ends with, if it raises. *)
Definition error_of {A} (r : result A) : option exn :=
  match r with
  | Ok _ => None
  | Raise e => Some e
  end.

Definition raises (db : table) (o : operation) : option exn :=
  match o with
  | AddItem now k n q p => error_of (fst (Store.add_item now k n q p db))
  | AddOrUpdate now now' k n q p => error_of (fst (Store.add_or_update now now' k n q p db))
  | SubtractQuantity now k q => error_of (fst (Store.subtract_quantity now k q db))
  | UpdateItem now k n q p => error_of (fst (Store.update_item now k n q p db))
  | DeleteItem k => error_of (fst (Store.delete_item k db))
  end.

(** The sku a call is about. *)
Definition target (o : operation) : string :=
  match o with
  | AddItem _ k _ _ _ => k
  | AddOrUpdate _ _ k _ _ _ => k
  | SubtractQuantity _ k _ => k
  | UpdateItem _ k _ _ _ => k
  | DeleteItem k => k
  end.

(** The order of [list_items] on the rows it returns. *)
Definition sku_lt (x y : item) : Prop := String.ltb (sku x) (sku y) = true.

(** The row [update_item] writes over [c]. *)
Definition updated (now : timestamp) (name : option string)
    (quantity : option Z) (price : option Q) (c : cells) : cells :=
  Cells (default (c_name c) name) (default (c_quantity c) quantity)
        (default (c_price c) price) now.

(** ** Text

    Character classes of Python's [str] methods and of [re] on [str]
    patterns, on the code points below 256. *)

Section text.
Local Open Scope string_scope.
Local Open Scope bool_scope.

Definition code (c : ascii) : nat := nat_of_ascii c.

Definition between (lo hi : nat) (c : ascii) : bool :=
  (lo <=? code c)%nat && (code c <=? hi)%nat.

(** [[0-9]], which is also [\d] below 256. *)
Definition is_digit (c : ascii) : bool := between 48 57 c.

(** [[a-z]]. *)
Definition is_lower_letter (c : ascii) : bool := between 97 122 c.

(** [[A-Z]]. *)
Definition is_upper_letter (c : ascii) : bool := between 65 90 c.

(** [[a-z0-9-_]]. *)
Definition is_token_char (c : ascii) : bool :=
  is_lower_letter c || is_digit c || (code c =? 45)%nat || (code c =? 95)%nat.

(** [[^0-9]]. *)
Definition is_not_digit (c : ascii) : bool := negb (is_digit c).

(** [str.isspace] and [\s]: TAB..CR, FS..US, space, NEL, NBSP. *)
Definition is_space (c : ascii) : bool :=
  between 9 13 c || between 28 32 c || (code c =? 133)%nat || (code c =? 160)%nat.

(** [\w]: the alphanumeric code points and the underscore. *)
Definition is_word (c : ascii) : bool :=
  is_digit c || is_upper_letter c || is_lower_letter c || (code c =? 95)%nat
  || (code c =? 170)%nat || between 178 179 c || (code c =? 181)%nat
  || between 185 186 c || between 188 190 c
  || between 192 214 c || between 216 246 c || between 248 255 c.

(** [str.lower] on one code point: A-Z and the capital letters
    U+00C0..U+00DE other than the multiplication sign. *)
Definition lower_char (c : ascii) : ascii :=
  if is_upper_letter c || (between 192 222 c && negb (code c =? 215)%nat)
  then ascii_of_nat (code c + 32) else c.

(** [str.upper] on one code point of a token of [[a-z0-9-_]], the only
    texts the parser applies it to. *)
Definition upper_char (c : ascii) : ascii :=
  if is_lower_letter c then ascii_of_nat (code c - 32) else c.

Fixpoint map_chars (f : ascii -> ascii) (s : string) : string :=
  match s with
  | EmptyString => EmptyString
  | String c s' => String (f c) (map_chars f s')
  end.

Definition lower (s : string) : string := map_chars lower_char s.
Definition upper (s : string) : string := map_chars upper_char s.

(** [str.title] on letters a-z and A-Z: a letter that follows a letter
    is lower-cased, any other letter is upper-cased. *)
Fixpoint title_from (previous_is_cased : bool) (s : string) : string :=
  match s with
  | EmptyString => EmptyString
  | String c s' =>
      let cased := is_lower_letter c || is_upper_letter c in
      String (if previous_is_cased then lower_char c else upper_char c)
             (title_from cased s')
  end.

Definition title (s : string) : string := title_from false s.

Fixpoint lstrip (s : string) : string :=
  match s with
  | String c s' => if is_space c then lstrip s' else s
  | EmptyString => EmptyString
  end.

Fixpoint rstrip (s : string) : string :=
  match s with
  | String c s' =>
      match rstrip s' with
      | EmptyString => if is_space c then EmptyString else String c EmptyString
      | r => String c r
      end
  | EmptyString => EmptyString
  end.

(** [str.strip()]. *)
Definition strip (s : string) : string := rstrip (lstrip s).

(** [t.startswith(p)]. *)
Definition startswith (t p : string) : bool := String.prefix p t.

(** [sub in t]. *)
Fixpoint contains (sub t : string) : bool :=
  String.prefix sub t ||
  match t with
  | String _ t' => contains sub t'
  | EmptyString => false
  end.

(** The value of a decimal digit. *)
Definition digit_value (c : ascii) : Z := Z.of_nat (code c) - 48.

Fixpoint int_from (acc : Z) (s : string) : Z :=
  match s with
  | String c s' => int_from (10 * acc + digit_value c) s'
  | EmptyString => acc
  end.

(** The value of a text of decimal digits. *)
Definition int_value (s : string) : Z := int_from 0 s.

(** [int(s)]: more than 4300 digits, leading zeros counted, raise. *)
Definition int (s : string) : result Z :=
  if (4300 <? String.length s)%nat then Raise (ValueError ExceedsDigitLimit)
  else Ok (int_value s).

(** The digits before and after the first full stop. *)
Fixpoint split_point (s : string) : string * string :=
  match s with
  | EmptyString => (EmptyString, EmptyString)
  | String c s' =>
      if (code c =? 46)%nat then (EmptyString, s')
      else let (i, f) := split_point s' in (String c i, f)
  end.

(** [float(s)] on a decimal numeral [digits] or [digits.digits]: its
    value, as a fraction in lowest terms. *)
Definition float (s : string) : Q :=
  let (i, f) := split_point s in
  Qred (Qmake (int_value (i ++ f)) (Z.to_pos (10 ^ Z.of_nat (String.length f)))).

(** The code points below 256 of a class. *)
Definition codes_of (p : ascii -> bool) : list nat :=
  List.filter (fun n => p (ascii_of_nat n)) (List.seq 0 256).

End text.

(** ** Regular expressions

    The fragment of [re] the parser's patterns are written in, with the
    backtracking matcher's order of preference: the outcomes of a pattern
    at a position are listed first choice first; repetitions are greedy. *)

Section regex.
Local Open Scope string_scope.
Local Open Scope bool_scope.

Inductive regex :=
| Lit (s : string)              (* the text itself *)
| Star (p : ascii -> bool)      (* [class*] *)
| Plus (p : ascii -> bool)      (* [class+] *)
| Boundary                      (* [\b] *)
| Group (r : regex)             (* [(r)] *)
| Opt (r : regex)               (* [(?:r)?] *)
| Seq (r1 r2 : regex).          (* [r1 r2] *)

(** Where a match stands: the character just passed (for [\b]), the
    text still ahead, and the groups captured, outermost first. *)
Record outcome := Outcome {
  before : option ascii;
  rest : string;
  groups : list string
}.

(** The text ahead once [p] is read off the front of [s]. *)
Fixpoint strip_prefix (p s : string) : option string :=
  match p, s with
  | EmptyString, _ => Some s
  | String a p', String b s' => if Ascii.eqb a b then strip_prefix p' s' else None
  | String _ _, EmptyString => None
  end.

Fixpoint last_char (prev : option ascii) (p : string) : option ascii :=
  match p with
  | EmptyString => prev
  | String c p' => last_char (Some c) p'
  end.

(** The part of [s] read to reach [s']. *)
Definition consumed (s s' : string) : string :=
  substring 0 (String.length s - String.length s') s.

Fixpoint star (p : ascii -> bool) (prev : option ascii) (s : string) : list outcome :=
  match s with
  | String c s' =>
      if p c then star p (Some c) s' ++ [Outcome prev s []]
      else [Outcome prev s []]
  | EmptyString => [Outcome prev s []]
  end.

Definition word_before (prev : option ascii) : bool :=
  match prev with Some c => is_word c | None => false end.

Definition word_ahead (s : string) : bool :=
  match s with String c _ => is_word c | EmptyString => false end.

Fixpoint matches (r : regex) (prev : option ascii) (s : string) : list outcome :=
  match r with
  | Lit l =>
      match strip_prefix l s with
      | Some s' => [Outcome (last_char prev l) s' []]
      | None => []
      end
  | Star p => star p prev s
  | Plus p =>
      match s with
      | String c s' => if p c then star p (Some c) s' else []
      | EmptyString => []
      end
  | Boundary =>
      if xorb (word_before prev) (word_ahead s) then [Outcome prev s []] else []
  | Group r =>
      List.map (fun o => Outcome (before o) (rest o) (consumed s (rest o) :: groups o))
               (matches r prev s)
  | Opt r => matches r prev s ++ [Outcome prev s []]
  | Seq r1 r2 =>
      List.flat_map
        (fun o1 =>
           List.map (fun o2 => Outcome (before o2) (rest o2) (groups o1 ++ groups o2))
                    (matches r2 (before o1) (rest o1)))
        (matches r1 prev s)
  end.

(** [re.search]: the first choice at the leftmost position that has one. *)
Fixpoint search_from (r : regex) (prev : option ascii) (s : string) : option outcome :=
  match matches r prev s with
  | o :: _ => Some o
  | [] =>
      match s with
      | String c s' => search_from r (Some c) s'
      | EmptyString => None
      end
  end.

Definition search (r : regex) (t : string) : option outcome := search_from r None t.

(** [m.group(1) if m else None]. *)
Definition group1 (m : option outcome) : option string :=
  match m with
  | Some o => List.head (groups o)
  | None => None
  end.

(** [re.findall] for a pattern without groups whose matches are not
    empty: the matched texts from left to right, each search resuming
    where the previous match ended ([skip] counts the characters of the
    previous match still to pass). *)
Fixpoint findall_from (r : regex) (skip : nat) (prev : option ascii) (s : string)
  : list string :=
  match skip with
  | S skip' =>
      match s with
      | String c s' => findall_from r skip' (Some c) s'
      | EmptyString => []
      end
  | O =>
      match matches r prev s with
      | o :: _ =>
          consumed s (rest o) ::
          match s with
          | String c s' =>
              findall_from r (String.length s - String.length (rest o) - 1) (Some c) s'
          | EmptyString => []
          end
      | [] =>
          match s with
          | String c s' => findall_from r 0 (Some c) s'
          | EmptyString => []
          end
      end
  end.

Definition findall (r : regex) (t : string) : list string := findall_from r 0 None t.

End regex.

(** ** Truth values

    Python's truth test, which [or], [not] and [if] apply: [None], zero
    and the empty text are false. *)

Class Truthy (A : Type) := truthy : A -> bool.

#[export] Instance truthy_int : Truthy Z := fun n => negb (n =? 0).
#[export] Instance truthy_float : Truthy Q := fun x => negb (Qeq_bool x 0).
#[export] Instance truthy_str : Truthy string :=
  fun s => match s with EmptyString => false | String _ _ => true end.
#[export] Instance truthy_optional {A} `{Truthy A} : Truthy (option A) :=
  fun o => match o with Some v => truthy v | None => false end.

(** [x or y] with both operands optional. *)
Definition or_else {A} `{Truthy A} (x y : option A) : option A :=
  if truthy x then x else y.

(** [x or d] with [d] a value. *)
Definition or_value {A} `{Truthy A} (x : option A) (d : A) : A :=
  match x with
  | Some v => if truthy v then v else d
  | None => d
  end.

(** ** agent.py *)

(** The action dictionary [_rule_based_parse] returns, by its ["type"];
    a key an update leaves out is [None]. *)
Inductive action :=
| Add (sku name : string) (quantity : Z) (price : Q)
| Subtract (sku : string) (quantity : Z)
| Update (sku : string) (name : option string) (quantity : option Z) (price : option Q)
| Delete (sku : string).

Section agent.
Local Open Scope string_scope.
Local Open Scope bool_scope.

(** [re.search(rf"{key}\s+([a-z0-9-_]+)", t)]. *)
Definition _find_after (t key : string) : option string :=
  group1 (search (Seq (Lit key) (Seq (Plus is_space) (Group (Plus is_token_char)))) t).

(** [int(m.group(1)) if m else None]. *)
Definition int_of_group (g : option string) : result (option Z) :=
  match g with
  | Some s => let? n := int s in Ok (Some n)
  | None => Ok None
  end.

(** [re.search(r"\b(\d+)\b", t)]. *)
Definition _find_int (t : string) : result (option Z) :=
  int_of_group
    (group1 (search (Seq Boundary (Seq (Group (Plus is_digit)) Boundary)) t)).

(** [re.search(rf"{key}[^0-9]*(\d+)", t)]. *)
Definition _find_int_after (t key : string) : result (option Z) :=
  int_of_group
    (group1 (search (Seq (Lit key) (Seq (Star is_not_digit) (Group (Plus is_digit)))) t)).

(** [re.search(rf"{key}[^0-9]*([0-9]+(?:\.[0-9]+)?)", t)]. *)
Definition _find_float_after (t key : string) : option Q :=
  option_map float
    (group1 (search
       (Seq (Lit key)
          (Seq (Star is_not_digit)
             (Group (Seq (Plus is_digit) (Opt (Seq (Lit ".") (Plus is_digit)))))))
       t)).

(** [max(words, key=len)] on a list that starts with [w]: the first of
    the longest. *)
Fixpoint max_len (w : string) (words : list string) : string :=
  match words with
  | [] => w
  | w' :: words' =>
      if (String.length w <? String.length w')%nat then max_len w' words'
      else max_len w words'
  end.

Definition mem (w : string) (l : list string) : bool :=
  List.existsb (String.eqb w) l.

(** [_find_name(t, exclude)]. *)
Definition _find_name (t : string) (exclude : list string) : option string :=
  let words := List.filter (fun w => negb (mem w exclude))
                           (findall (Plus is_lower_letter) t) in
  match words with
  | [] => None
  | w :: words' => Some (max_len w words')
  end.

(** The conditions of the four branches, on the normalised text. *)
Definition add_keyword (t : string) : bool :=
  startswith t "add" || contains " add " t.

Definition subtract_keyword (t : string) : bool :=
  startswith t "subtract" || startswith t "minus"
  || contains " subtract " t || contains " remove " t.

Definition update_keyword (t : string) : bool :=
  startswith t "update" || contains " update " t || contains " change " t.

Definition delete_keyword (t : string) : bool :=
  startswith t "delete" || contains " delete " t
  || startswith t "remove" || contains " remove sku" t.

(** [text.lower().strip()]. *)
Definition normalise (text : string) : string := strip (lower text).

(** [sku = _find_after(t, "sku") or _find_after(t, "code")]. *)
Definition find_sku (t : string) : option string :=
  or_else (_find_after t "sku") (_find_after t "code").

(** The optional keys of an update's [data]. *)
Definition update_quantity (t : string) : result (option Z) :=
  let? q := _find_int_after t "qty" in
  if truthy q then Ok q else _find_int_after t "quantity".

Definition update_price (t : string) : option Q := _find_float_after t "price".

Definition update_name (t : string) : option string :=
  let nm := _find_after t "name" in
  if truthy nm then option_map title nm else None.

(** [len(data.keys())] for an update's [data]. *)
Definition key {A} (v : option A) : nat :=
  match v with Some _ => 1 | None => 0 end.

Definition len_keys (name : option string) (quantity : option Z) (price : option Q) : nat :=
  2 + key quantity + key price + key name.

Definition _rule_based_parse (text : string) : result action :=
  let t := normalise text in
  if add_keyword t then
    let? q := _find_int t in
    let q := or_value q 1 in
    let sku := find_sku t in
    let price := or_value (_find_float_after t "price") 0%Q in
    let name := or_value
                  (_find_name t ["add"; "with"; "sku"; "price"; "update"; "delete"; "subtract"])
                  (or_value sku "item") in
    match sku with
    | Some sku' =>
        if negb (truthy sku') then Raise (AgentParseError SkuNotFoundAdd)
        else Ok (Add (upper sku') (title name) q price)
    | None => Raise (AgentParseError SkuNotFoundAdd)
    end
  else if subtract_keyword t then
    let? q := _find_int t in
    let q := or_value q 1 in
    let sku := find_sku t in
    match sku with
    | Some sku' =>
        if negb (truthy sku') then Raise (AgentParseError SkuNotFoundSubtract)
        else Ok (Subtract (upper sku') q)
    | None => Raise (AgentParseError SkuNotFoundSubtract)
    end
  else if update_keyword t then
    let sku := find_sku t in
    match sku with
    | Some sku' =>
        if negb (truthy sku') then Raise (AgentParseError SkuNotFoundUpdate)
        else
          let? q := update_quantity t in
          let p := update_price t in
          let nm := update_name t in
          if (len_keys nm q p =? 2)%nat then Raise (AgentParseError NothingToUpdate)
          else Ok (Update (upper sku') nm q p)
    | None => Raise (AgentParseError SkuNotFoundUpdate)
    end
  else if delete_keyword t then
    let sku := find_sku t in
    match sku with
    | Some sku' =>
        if negb (truthy sku') then Raise (AgentParseError SkuNotFoundDelete)
        else Ok (Delete (upper sku'))
    | None => Raise (AgentParseError SkuNotFoundDelete)
    end
  else Raise (AgentParseError NotRecognized).

End agent.

(** ** Shapes of texts and actions *)

(** Every character of [s] is in the class [p]. *)
Fixpoint all_chars (p : ascii -> bool) (s : string) : bool :=
  match s with
  | EmptyString => true
  | String c s' => p c && all_chars p s'
  end.

(** [[A-Z0-9-_]]: what [str.upper] makes of a token character. *)
Definition is_sku_char (c : ascii) : bool :=
  is_upper_letter c || is_digit c || (code c =? 45)%nat || (code c =? 95)%nat.

(** The text does not start with white space. *)
Definition no_leading_space (s : string) : Prop :=
  match s with
  | EmptyString => True
  | String c _ => is_space c = false
  end.

(** [action["sku"]]. *)
Definition sku_of (a : action) : string :=
  match a with
  | Add k _ _ _ => k
  | Subtract k _ => k
  | Update k _ _ _ => k
  | Delete k => k
  end.

(** ** The precedence of the intents

    The order the specification documents: add keywords, then subtract
    keywords, then update keywords, then delete keywords. *)

Inductive intent := IAdd | ISubtract | IUpdate | IDelete.

Definition classify (t : string) : option intent :=
  if add_keyword t then Some IAdd
  else if subtract_keyword t then Some ISubtract
  else if update_keyword t then Some IUpdate
  else if delete_keyword t then Some IDelete
  else None.

(** The branch of [_rule_based_parse] a result comes from: the type of
    the action, or the branch whose message the error carries. *)
Definition intent_of (r : result action) : option intent :=
  match r with
  | Ok (Add _ _ _ _) => Some IAdd
  | Ok (Subtract _ _) => Some ISubtract
  | Ok (Update _ _ _ _) => Some IUpdate
  | Ok (Delete _) => Some IDelete
  | Raise (AgentParseError SkuNotFoundAdd) => Some IAdd
  | Raise (AgentParseError SkuNotFoundSubtract) => Some ISubtract
  | Raise (AgentParseError SkuNotFoundUpdate) => Some IUpdate
  | Raise (AgentParseError NothingToUpdate) => Some IUpdate
  | Raise (AgentParseError SkuNotFoundDelete) => Some IDelete
  | Raise _ => None
  end.

(** A command whose quantity is a numeral of 4301 digits, to run the
    parser on. *)
Fixpoint nines (n : nat) : string :=
  match n with
  | O => EmptyString
  | S n' => String "9"%char (nines n')
  end.

Definition add_long_number : string :=
  ("add " ++ nines 4301 ++ " widgets sku w1")%string.

(** ** class Agent

    The remote model and the JSON decoder are outside the repository:
    the client is the function from a prompt to the text of the reply
    ([None] when [generate_content] or [res.text] raises), and
    [json.loads] is a function [loads] from a text to the value it
    decodes ([None] when it raises). *)

#[local] Unset Elimination Schemes.
Inductive json :=
| JNull
| JBool (b : bool)
| JInt (n : Z)
| JFloat (x : Q)
| JStr (s : string)
| JList (l : list json)
| JDict (d : list (string * json)).       (* the items of the dict, each key once *)
#[local] Set Elimination Schemes.

(** [d.get(key)]. *)
Definition dict_get (key : string) (d : list (string * json)) : option json :=
  option_map snd (List.find (fun kv => String.eqb (fst kv) key) d).

(** The dictionary [_rule_based_parse] builds for an action, keys in the
    order it inserts them. *)
Definition action_dict (a : action) : json :=
  match a with
  | Add k n q p =>
      JDict [("type", JStr "add"); ("sku", JStr k); ("name", JStr n);
             ("quantity", JInt q); ("price", JFloat p)]%string
  | Subtract k q =>
      JDict [("type", JStr "subtract"); ("sku", JStr k); ("quantity", JInt q)]%string
  | Update k n q p =>
      JDict ([("type", JStr "update"); ("sku", JStr k)]%string
             ++ match q with Some v => [("quantity"%string, JInt v)] | None => [] end
             ++ match p with Some v => [("price"%string, JFloat v)] | None => [] end
             ++ match n with Some v => [("name"%string, JStr v)] | None => [] end)
  | Delete k => JDict [("type", JStr "delete"); ("sku", JStr k)]%string
  end.

(** [data.get("type")] is one of the four action types. Anything else,
    a value without [get] or an unhashable type included, ends in an
    exception inside the [try] block. *)
Definition has_action_type (data : json) : bool :=
  match data with
  | JDict d =>
      match dict_get "type" d with
      | Some (JStr s) => mem s ["add"; "subtract"; "update"; "delete"]%string
      | _ => false
      end
  | _ => false
  end.

(** [s.strip(chars)]. *)
Fixpoint lstrip_of (p : ascii -> bool) (s : string) : string :=
  match s with
  | String c s' => if p c then lstrip_of p s' else s
  | EmptyString => EmptyString
  end.

Fixpoint rstrip_of (p : ascii -> bool) (s : string) : string :=
  match s with
  | String c s' =>
      match rstrip_of p s' with
      | EmptyString => if p c then EmptyString else String c EmptyString
      | r => String c r
      end
  | EmptyString => EmptyString
  end.

Definition strip_of (p : ascii -> bool) (s : string) : string :=
  rstrip_of p (lstrip_of p s).

Definition is_backtick (c : ascii) : bool := (code c =? 96)%nat.

(** The f-string [prompt] of [Agent.parse]. *)
Definition nl : string := String (ascii_of_nat 10) EmptyString.

Definition prompt (text : string) : string :=
  ("You are a strict JSON command parser for an inventory app."
    ++ nl
    ++ "                Allowed actions:"
    ++ nl
    ++ "                  - add: requires sku (string), name (string), quantity (int), price (float)"
    ++ nl
    ++ "                  - subtract: requires sku (string), quantity (int)"
    ++ nl
    ++ "                  - update: requires sku (string) and any of name (string), quantity (int), price (float)"
    ++ nl
    ++ "                  - delete: requires sku (string)"
    ++ nl
    ++ "                Input: "
    ++ text
    ++ nl
    ++ "                Respond with ONLY minified JSON dictionary with a 'type' field and needed fields. No extra text."
    ++ nl
    ++ "                ")%string.

Module Agent.

(** [self._client]: [None] without a key or when the client could not be
    built. *)
Record t := { _client : option (string -> option string) }.

(** [Agent.parse(text)]. *)
Definition parse (loads : string -> option json) (self : t) (text : string)
  : result json :=
  let rule_based :=
    match _rule_based_parse text with
    | Ok a => Ok (action_dict a)
    | Raise e => Raise e
    end in
  match _client self with
  | Some generate_content =>
      match generate_content (prompt text) with
      | Some res_text =>
          let raw := strip res_text in
          let raw := strip_of is_backtick raw in
          match loads raw with
          | Some data => if has_action_type data then Ok data else rule_based
          | None => rule_based
          end
      | None => rule_based
      end
  | None => rule_based
  end.

End Agent.

(** ** cli.py *)

(** What a command prints with [typer.echo]. *)
Inductive echo :=
| Added (sku name : string) (qty : Z) (price : Q)
| NewQuantity (sku : string) (new_q : Z)
| Updated (sku : string)
| Deleted (sku : string)
| CouldNotParse (m : parse_message).       (* then [typer.Exit(code=1)] *)

(** What [list] ends with. *)
Inductive listing :=
| NoItemsFound                             (* "No items found.", [typer.Exit(code=0)] *)
| Table (rows : list item)                 (* the rows handed to [tabulate] *)
| NoneNotSubscriptable.                    (* TypeError at [r["sku"]] for [r = None] *)

(** [[.. r["sku"] .. for r in rows]]. *)
Fixpoint subscript_all (rows : list (option item)) : option (list item) :=
  match rows with
  | [] => Some []
  | None :: _ => None
  | Some r :: rows' => option_map (cons r) (subscript_all rows')
  end.

(** A row of the CSV file with its numbers converted; [None] stands for
    a row [int] or [float] rejects. *)
Definition csv_row : Type := option (string * string * Z * Q).

(** How [import_csv] ends: the message with the count, or the exception
    of the row it stopped at ([None]: a conversion of that row). *)
Inductive import_end :=
| Imported (count : nat)
| Stopped (count : nat) (e : option exn).

(** The name, quantity and price of the last row of the file for the sku
    [k], if the file has one. *)
Fixpoint last_row_for (k : string) (rows : list (timestamp * timestamp * csv_row))
  : option (string * Z * Q) :=
  match rows with
  | [] => None
  | (_, _, r) :: rows' =>
      match last_row_for k rows' with
      | Some x => Some x
      | None =>
          match r with
          | Some (k', n, q, p) => if String.eqb k' k then Some (n, q, p) else None
          | None => None
          end
      end
  end.

Module cli.

(** The "# Execute" part of [agent]. *)
Definition execute (now : timestamp) (a : action) : conn echo :=
  match a with
  | Add k n q p => Store.add_item now k n q p >> ret (Added k n q p)
  | Subtract k q =>
      let* new_q := Store.subtract_quantity now k q in ret (NewQuantity k new_q)
  | Update k n q p => Store.update_item now k n q p >> ret (Updated k)
  | Delete k => Store.delete_item k >> ret (Deleted k)
  end.

(** [agent(command)] for an [Agent] without a client, whose [parse] is
    [_rule_based_parse]. *)
Definition agent (now : timestamp) (command : string) : conn echo :=
  match _rule_based_parse command with
  | Ok action => execute now action
  | Raise (AgentParseError m) => ret (CouldNotParse m)
  | Raise e => raise e
  end.

(** [list(sku)]. *)
Definition list_items (sku : option string) : conn listing :=
  let* rows :=
    (match sku with
     | Some k =>
         if truthy k then let* r := Store.get_item k in ret [r]
         else let* l := Store.list_items in ret (Some <$> l)
     | None => let* l := Store.list_items in ret (Some <$> l)
     end) in
  match rows with
  | [] => ret NoItemsFound
  | _ => match subscript_all rows with
         | Some table => ret (Table table)
         | None => ret NoneNotSubscriptable
         end
  end.

(** The loop of [import_csv] over the rows of the file, each with the
    clock readings of its [add_or_update]. *)
Fixpoint import_rows (count : nat) (rows : list (timestamp * timestamp * csv_row))
    (db : table) : import_end * table :=
  match rows with
  | [] => (Imported count, db)
  | (_, _, None) :: _ => (Stopped count None, db)
  | (now, now', Some (k, n, q, p)) :: rows' =>
      match Store.add_or_update now now' k n q p db with
      | (Ok _, db') => import_rows (S count) rows' db'
      | (Raise e, db') => (Stopped count (Some e), db')
      end
  end.

Definition import_csv (rows : list (timestamp * timestamp * csv_row)) (db : table)
  : import_end * table :=
  import_rows 0 rows db.

(** [export_csv]: the rows handed to the CSV writer, [None] when it
    prints "No items to export." and writes no file. *)
Definition export_csv : conn (option (list (string * string * Z * Q))) :=
  let* rows := Store.list_items in
  match rows with
  | [] => ret None
  | _ => ret (Some ((fun r => (sku r, name r, quantity r, price r)) <$> rows))
  end.

End cli.

(** The name, quantity and price of a row. *)
Definition contents (c : cells) : string * Z * Q :=
  (c_name c, c_quantity c, c_price c).

(** * Properties of the store *)

Section store_lemmas.
Implicit Types (db : table) (k : string) (c : cells).

Lemma price_nonneg_true (p : Q) : price_nonneg p = true <-> (0 <= p)%Q.
Proof. unfold price_nonneg. apply Qle_bool_iff. Qed.

Lemma price_neg_false (p : Q) : price_neg p = false <-> (0 <= p)%Q.
Proof.
  unfold price_neg. rewrite negb_false_iff. apply Qle_bool_iff.
Qed.

Lemma fits_integer_true (n : Z) : fits_integer n = true <-> - 2 ^ 63 <= n < 2 ^ 63.
Proof.
  unfold fits_integer. rewrite andb_true_iff, Z.leb_le, Z.ltb_lt. done.
Qed.

(** What fits an INTEGER is printable. *)
Lemma integer_below_digit_limit : 2 ^ 63 < digit_limit.
Proof.
  unfold digit_limit. apply Z.lt_le_trans with (10 ^ 63).
  - apply Z.pow_lt_mono_l; lia.
  - apply Z.pow_le_mono_r; lia.
Qed.

Lemma printable_integer (n : Z) : - 2 ^ 63 <= n < 2 ^ 63 -> printable n = true.
Proof.
  intros Hn. unfold printable. apply Z.ltb_lt.
  pose proof integer_below_digit_limit. lia.
Qed.

Lemma cannot_subtract_printable (qty current : Z) :
  printable qty = true -> printable current = true ->
  Store.cannot_subtract qty current = CannotSubtract qty current.
Proof. unfold Store.cannot_subtract. by intros -> ->. Qed.

Lemma fits_integer_false (n : Z) :
  fits_integer n = false <-> n < - 2 ^ 63 \/ 2 ^ 63 <= n.
Proof.
  unfold fits_integer. rewrite andb_false_iff, Z.leb_gt, Z.ltb_ge. done.
Qed.

(** [add_item] on a sku that is not stored, case by case. *)
Lemma add_item_absent db now k nm q p :
  db !! k = None ->
  Store.add_item now k nm q p db =
    if negb (fits_integer q) then (Raise OverflowError, db)
    else if q <? 0 then (Raise (IntegrityError CheckQuantity), db)
    else if negb (price_nonneg p) then (Raise (IntegrityError CheckPrice), db)
    else (Ok tt, <[k := Cells nm q p now]> db).
Proof.
  intros Hk. unfold Store.add_item, with_conn, bind, select, insert_row. simpl.
  rewrite Hk. simpl. destruct (fits_integer q); simpl; [|done].
  destruct (q <? 0); [done|]. destruct (price_nonneg p); simpl; [|done].
  by rewrite Hk.
Qed.

Lemma add_item_fresh db now k nm q p :
  db !! k = None -> 0 <= q < 2 ^ 63 -> (0 <= p)%Q ->
  Store.add_item now k nm q p db = (Ok tt, <[k := Cells nm q p now]> db).
Proof.
  intros Hk Hq Hp. rewrite add_item_absent by done.
  rewrite (proj2 (fits_integer_true q)) by lia. simpl.
  destruct (Z.ltb_spec q 0) as [?|_]; [lia|].
  apply price_nonneg_true in Hp. by rewrite Hp.
Qed.

Lemma add_item_present db now k nm q p c :
  db !! k = Some c ->
  Store.add_item now k nm q p db = (Raise (ValueError (AlreadyExists k)), db).
Proof.
  intros Hk. unfold Store.add_item, with_conn, bind, select. simpl.
  rewrite Hk. reflexivity.
Qed.

Lemma get_item_lookup db k :
  Store.get_item k db = (Ok (as_item k <$> db !! k), db).
Proof.
  unfold Store.get_item, with_conn, bind, select.
  destruct (db !! k); reflexivity.
Qed.

Lemma list_items_ok db :
  exists l, Store.list_items db = (Ok l, db) /\
            forall k c, db !! k = Some c -> as_item k c ∈ l.
Proof.
  eexists. split; [reflexivity|].
  intros k c Hk.
  apply list_elem_of_fmap. exists (k, c). split; [reflexivity|].
  rewrite merge_sort_Permutation.
  by apply elem_of_map_to_list.
Qed.

End store_lemmas.

Section store_operations.
Implicit Types (db : table) (k : string) (c : cells).

Lemma subtract_quantity_absent db now k qty :
  db !! k = None ->
  Store.subtract_quantity now k qty db = (Raise (ValueError (NotFound k)), db).
Proof.
  intros Hk. unfold Store.subtract_quantity, with_conn, bind, select, raise.
  simpl. by rewrite Hk.
Qed.

Lemma subtract_quantity_insufficient db now k qty c :
  db !! k = Some c -> c_quantity c < qty ->
  Store.subtract_quantity now k qty db
  = (Raise (ValueError (Store.cannot_subtract qty (c_quantity c))), db).
Proof.
  intros Hk Hlt. unfold Store.subtract_quantity, with_conn, bind, select, raise.
  simpl. rewrite Hk. simpl.
  destruct (Z.ltb_spec (c_quantity c) qty); [reflexivity | lia].
Qed.

(** [subtract_quantity] on a stored sku, case by case. *)
Lemma subtract_quantity_present db now k qty c :
  db !! k = Some c ->
  Store.subtract_quantity now k qty db =
    if c_quantity c <? qty
    then (Raise (ValueError (Store.cannot_subtract qty (c_quantity c))), db)
    else if fits_integer (c_quantity c - qty)
    then (Ok (c_quantity c - qty),
          <[k := Cells (c_name c) (c_quantity c - qty) (c_price c) now]> db)
    else (Raise OverflowError, db).
Proof.
  intros Hk.
  unfold Store.subtract_quantity, with_conn, bind, select, update_row, ret, raise.
  simpl. rewrite Hk. simpl.
  destruct (Z.ltb_spec (c_quantity c) qty) as [|Hle]; [done|]. simpl.
  rewrite andb_true_r. destruct (fits_integer _); simpl; [|done]. rewrite Hk.
  destruct (Z.ltb_spec (c_quantity c - qty) 0); [lia | reflexivity].
Qed.

Lemma subtract_quantity_enough db now k qty c :
  db !! k = Some c -> qty <= c_quantity c -> c_quantity c - qty < 2 ^ 63 ->
  Store.subtract_quantity now k qty db
  = (Ok (c_quantity c - qty),
     <[k := Cells (c_name c) (c_quantity c - qty) (c_price c) now]> db).
Proof.
  intros Hk Hle Hfit. rewrite (subtract_quantity_present db now k qty c Hk).
  destruct (Z.ltb_spec (c_quantity c) qty); [lia|].
  by rewrite (proj2 (fits_integer_true _)) by lia.
Qed.

Lemma update_item_absent db now k nm q p :
  db !! k = None -> (nm, q, p) <> (None, None, None) ->
  Store.update_item now k nm q p db = (Raise (ValueError (NotFound k)), db).
Proof.
  intros Hk Hsome. unfold Store.update_item, with_conn, bind, select, raise.
  destruct nm, q, p; try done; simpl; by rewrite Hk.
Qed.

(** [update_item] on a stored sku with a field supplied, case by case:
    the two validations, then the binding of the quantity. *)
Lemma update_item_present db now k nm q p c :
  db !! k = Some c -> (nm, q, p) <> (None, None, None) ->
  Store.update_item now k nm q p db =
    if match q with Some v => v <? 0 | None => false end
    then (Raise (ValueError QuantityNonneg), db)
    else if match p with Some w => price_neg w | None => false end
    then (Raise (ValueError PriceNonneg), db)
    else if match q with Some v => fits_integer v | None => true end
    then (Ok tt, <[k := updated now nm q p c]> db)
    else (Raise OverflowError, db).
Proof.
  intros Hk Hsome.
  unfold Store.update_item, Store.update_fields, with_conn, bind, select,
    update_row, raise, updated, price_neg.
  destruct nm as [n|], q as [v|], p as [w|]; try done; simpl; rewrite Hk; simpl;
    try (destruct (Z.ltb_spec v 0) as [Hv|Hv]; simpl; [done|]);
    try (destruct (Qle_bool 0 w) eqn:Hw; simpl; [|done]);
    rewrite ?andb_true_r;
    try (destruct (fits_integer v); simpl; [|done]);
    rewrite Hk;
    try (destruct (Z.ltb_spec v 0); [lia|]);
    unfold price_nonneg; rewrite ?Hw; reflexivity.
Qed.

Lemma update_item_supplied db now k nm q p c :
  db !! k = Some c ->
  (forall v, q = Some v -> 0 <= v < 2 ^ 63) ->
  (forall v, p = Some v -> (0 <= v)%Q) ->
  (nm, q, p) <> (None, None, None) ->
  Store.update_item now k nm q p db = (Ok tt, <[k := updated now nm q p c]> db).
Proof.
  intros Hk Hq Hp Hsome. rewrite (update_item_present db now k nm q p c Hk Hsome).
  destruct q as [v|].
  - specialize (Hq v eq_refl). destruct (Z.ltb_spec v 0); [lia|].
    rewrite (proj2 (fits_integer_true v)) by lia.
    destruct p as [w|]; [|done]. by rewrite (proj2 (price_neg_false w) (Hp w eq_refl)).
  - destruct p as [w|]; [|done]. by rewrite (proj2 (price_neg_false w) (Hp w eq_refl)).
Qed.

Lemma delete_item_present db k c :
  db !! k = Some c -> Store.delete_item k db = (Ok tt, delete k db).
Proof.
  intros Hk. unfold Store.delete_item, with_conn, bind, select, delete_row.
  simpl. by rewrite Hk.
Qed.

Lemma delete_item_absent db k :
  db !! k = None ->
  Store.delete_item k db = (Raise (ValueError (NotFound k)), db).
Proof.
  intros Hk. unfold Store.delete_item, with_conn, bind, select, raise.
  simpl. by rewrite Hk.
Qed.

(** [add_or_update], case by case. *)
Lemma add_or_update_cases db now now' k nm q p :
  Store.add_or_update now now' k nm q p db =
    match db !! k with
    | None => Store.add_item now k nm q p db
    | Some _ => Store.update_item now' k (Some nm) (Some q) (Some p) db
    end.
Proof.
  unfold Store.add_or_update. destruct (db !! k) as [c|] eqn:Hk.
  - by rewrite (add_item_present db now k nm q p c Hk).
  - rewrite (add_item_absent db now k nm q p Hk).
    destruct (negb _); [done|]. destruct (q <? 0); [done|]. by destruct (negb _).
Qed.

End store_operations.

Section store_invariant.
Implicit Types (db : table) (k : string) (c : cells).

Lemma table_ok_empty : table_ok ∅.
Proof. intros k c Hk. by rewrite lookup_empty in Hk. Qed.

Lemma table_ok_insert db k c :
  table_ok db -> 0 <= c_quantity c < 2 ^ 63 -> (0 <= c_price c)%Q ->
  table_ok (<[k := c]> db).
Proof.
  intros Hdb Hq Hp k' c' Hk'.
  destruct (decide (k = k')) as [->|Hne].
  - rewrite lookup_insert_eq in Hk'. by simplify_eq.
  - rewrite lookup_insert_ne in Hk' by done. eauto.
Qed.

Lemma table_ok_delete db k : table_ok db -> table_ok (delete k db).
Proof.
  intros Hdb k' c' Hk'.
  apply lookup_delete_Some in Hk' as [_ Hk']. eauto.
Qed.

Lemma add_item_table_ok db now k nm q p :
  table_ok db -> table_ok (snd (Store.add_item now k nm q p db)).
Proof.
  intros Hdb. destruct (db !! k) as [c|] eqn:Hk.
  - by rewrite (add_item_present db now k nm q p c Hk).
  - rewrite (add_item_absent db now k nm q p Hk).
    destruct (fits_integer q) eqn:Hfit; simpl; [|done].
    destruct (Z.ltb_spec q 0); simpl; [done|].
    destruct (price_nonneg p) eqn:Hp; simpl; [|done].
    apply fits_integer_true in Hfit.
    apply table_ok_insert; simpl; [done|lia|by apply price_nonneg_true].
Qed.

Lemma subtract_quantity_table_ok db now k qty :
  table_ok db -> table_ok (snd (Store.subtract_quantity now k qty db)).
Proof.
  intros Hdb. destruct (db !! k) as [c|] eqn:Hk.
  - rewrite (subtract_quantity_present db now k qty c Hk).
    destruct (Z.ltb_spec (c_quantity c) qty); simpl; [done|].
    destruct (fits_integer _) eqn:Hfit; simpl; [|done].
    apply fits_integer_true in Hfit.
    apply table_ok_insert; simpl; [done|lia|by apply (Hdb k c)].
  - by rewrite subtract_quantity_absent.
Qed.

Lemma update_item_table_ok db now k nm q p :
  table_ok db -> table_ok (snd (Store.update_item now k nm q p db)).
Proof.
  intros Hdb.
  assert ((nm, q, p) = (None, None, None) \/ (nm, q, p) <> (None, None, None))
    as [[= -> -> ->]|Hsome] by (destruct nm, q, p; (by left) || (by right)); [done|].
  destruct (db !! k) as [c|] eqn:Hk.
  - rewrite (update_item_present db now k nm q p c Hk Hsome).
    pose proof (Hdb k c Hk) as [Hcq Hcp].
    destruct q as [v|]; [destruct (Z.ltb_spec v 0); simpl; [done|]|];
      (destruct p as [w|]; [destruct (price_neg w) eqn:Hw; simpl; [done|]|]);
      try (destruct (fits_integer v) eqn:Hfit; simpl; [|done];
           apply fits_integer_true in Hfit);
      simpl; apply table_ok_insert; simpl;
      try done; try lia; by apply price_neg_false.
  - by rewrite update_item_absent.
Qed.

Lemma delete_item_table_ok db k :
  table_ok db -> table_ok (snd (Store.delete_item k db)).
Proof.
  intros Hdb. unfold Store.delete_item, with_conn, bind, select, delete_row, raise.
  simpl. destruct (db !! k); simpl; [|done]. by apply table_ok_delete.
Qed.

Lemma add_or_update_table_ok db now now' k nm q p :
  table_ok db -> table_ok (snd (Store.add_or_update now now' k nm q p db)).
Proof.
  intros Hdb. rewrite add_or_update_cases.
  destruct (db !! k); [by apply update_item_table_ok | by apply add_item_table_ok].
Qed.

Lemma perform_table_ok db o : table_ok db -> table_ok (perform db o).
Proof.
  destruct o; simpl;
    auto using add_item_table_ok, add_or_update_table_ok,
      subtract_quantity_table_ok, update_item_table_ok, delete_item_table_ok.
Qed.

End store_invariant.

(** * Properties of the parser *)

Section regex_lemmas.
Local Open Scope string_scope.

Lemma star_outcome p prev s o :
  In o (star p prev s) ->
  groups o = [] /\ (String.length (rest o) <= String.length s)%nat.
Proof.
  revert prev. induction s as [|c s IH]; intros prev Ho; simpl in Ho.
  - destruct Ho as [<-|[]]. simpl. split; [reflexivity | lia].
  - destruct (p c).
    + apply in_app_or in Ho as [Ho|[<-|[]]].
      * apply IH in Ho as [? ?]. simpl. split; [assumption | lia].
      * simpl. split; [reflexivity | lia].
    + destruct Ho as [<-|[]]. simpl. split; [reflexivity | lia].
Qed.

Lemma plus_outcome p prev s o :
  In o (matches (Plus p) prev s) ->
  groups o = [] /\ (String.length (rest o) < String.length s)%nat.
Proof.
  simpl. destruct s as [|c s]; [intros []|].
  destruct (p c); [|intros []].
  intros Ho. apply star_outcome in Ho as [? ?]. simpl. split; [assumption | lia].
Qed.

Lemma lit_outcome l prev s o :
  In o (matches (Lit l) prev s) -> groups o = [].
Proof.
  simpl. destruct (strip_prefix l s); [|intros []].
  intros [<-|[]]. reflexivity.
Qed.

Lemma consumed_nonempty s s' :
  (String.length s' < String.length s)%nat -> consumed s s' <> "".
Proof.
  intros Hlt. unfold consumed.
  destruct s as [|c s]; simpl in *; [lia|].
  destruct (S (String.length s) - String.length s')%nat eqn:Hn; [lia|].
  simpl. discriminate.
Qed.

Lemma seq_outcome r1 r2 prev s o :
  In o (matches (Seq r1 r2) prev s) ->
  exists o1 o2, In o1 (matches r1 prev s) /\
                In o2 (matches r2 (before o1) (rest o1)) /\
                groups o = (groups o1 ++ groups o2)%list /\ rest o = rest o2.
Proof.
  cbn [matches]. intros Ho.
  apply in_flat_map in Ho as (o1 & Ho1 & Ho).
  apply in_map_iff in Ho as (o2 & <- & Ho2). eauto 6.
Qed.

Lemma group_outcome r prev s o :
  In o (matches (Group r) prev s) ->
  exists o', In o' (matches r prev s) /\
             groups o = consumed s (rest o') :: groups o' /\ rest o = rest o'.
Proof.
  cbn [matches]. intros Ho.
  apply in_map_iff in Ho as (o' & <- & Ho'). eauto.
Qed.

(** A match of [key\s+([a-z0-9-_]+)] captures one group, which is not
    empty. *)
Lemma find_after_outcome key prev s o :
  In o (matches (Seq (Lit key) (Seq (Plus is_space) (Group (Plus is_token_char)))) prev s) ->
  exists g, groups o = [g] /\ g <> "".
Proof.
  intros Ho.
  apply seq_outcome in Ho as (o1 & o' & Ho1 & Ho' & -> & _).
  apply seq_outcome in Ho' as (o2 & o3 & Ho2 & Ho3 & -> & _).
  apply group_outcome in Ho3 as (o4 & Ho4 & -> & _).
  apply lit_outcome in Ho1 as ->.
  apply plus_outcome in Ho2 as [-> _].
  apply plus_outcome in Ho4 as [-> Hlen].
  eexists. split; [reflexivity|]. by apply consumed_nonempty.
Qed.

Lemma search_from_matches r prev s o :
  search_from r prev s = Some o -> exists prev' s', In o (matches r prev' s').
Proof.
  revert prev. induction s as [|c s IH]; intros prev; simpl.
  - destruct (matches r prev "") as [|o' l] eqn:Hm; [discriminate|].
    intros [= ->]. exists prev, "". rewrite Hm. by left.
  - destruct (matches r prev (String c s)) as [|o' l] eqn:Hm.
    + apply IH.
    + intros [= ->]. exists prev, (String c s). rewrite Hm. by left.
Qed.

Lemma _find_after_nonempty t key g : _find_after t key = Some g -> g <> "".
Proof.
  unfold _find_after, search, group1.
  destruct (search_from _ None t) as [o|] eqn:Hs; [|discriminate].
  apply search_from_matches in Hs as (prev' & s' & Ho).
  apply find_after_outcome in Ho as (g' & -> & Hg'). simpl. by intros [= <-].
Qed.

Lemma find_sku_truthy t g : find_sku t = Some g -> truthy g = true.
Proof.
  unfold find_sku, or_else. intros Hg.
  assert (g <> "") as Hne.
  { destruct (truthy (_find_after t "sku")); eauto using _find_after_nonempty. }
  by destruct g.
Qed.

End regex_lemmas.

Section parser_lemmas.
Local Open Scope string_scope.

Lemma classify_add t : classify t = Some IAdd <-> add_keyword t = true.
Proof.
  unfold classify.
  destruct (add_keyword t), (subtract_keyword t), (update_keyword t),
    (delete_keyword t); split; congruence.
Qed.

Lemma classify_update t :
  classify t = Some IUpdate <->
  add_keyword t = false /\ subtract_keyword t = false /\ update_keyword t = true.
Proof.
  unfold classify.
  destruct (add_keyword t), (subtract_keyword t), (update_keyword t),
    (delete_keyword t); intuition congruence.
Qed.

(** [int], and with it the searches for an integer, raise nothing but
    the digit-limit [ValueError]. *)
Lemma int_of_group_raises g e :
  int_of_group g = Raise e -> e = ValueError ExceedsDigitLimit.
Proof.
  unfold int_of_group, int. destruct g as [s|]; [|done].
  destruct (_ <? _)%nat; simpl; [|done]. by intros [= <-].
Qed.

Lemma _find_int_raises t e :
  _find_int t = Raise e -> e = ValueError ExceedsDigitLimit.
Proof. apply int_of_group_raises. Qed.

Lemma _find_int_after_raises t key e :
  _find_int_after t key = Raise e -> e = ValueError ExceedsDigitLimit.
Proof. apply int_of_group_raises. Qed.

Lemma update_quantity_raises t e :
  update_quantity t = Raise e -> e = ValueError ExceedsDigitLimit.
Proof.
  unfold update_quantity.
  destruct (_find_int_after t "qty") as [q|e'] eqn:Hq; simpl.
  - destruct (truthy q); [done|]. apply _find_int_after_raises.
  - intros [= <-]. by eapply _find_int_after_raises.
Qed.

(** The add branch, once the first standalone integer is read. *)
Lemma parse_add text n :
  add_keyword (normalise text) = true ->
  _find_int (normalise text) = Ok n ->
  _rule_based_parse text =
    match find_sku (normalise text) with
    | Some s =>
        Ok (Add (upper s)
              (title (or_value
                 (_find_name (normalise text)
                    ["add"; "with"; "sku"; "price"; "update"; "delete"; "subtract"])
                 (or_value (Some s) "item")))
              (or_value n 1)
              (or_value (_find_float_after (normalise text) "price") 0%Q))
    | None => Raise (AgentParseError SkuNotFoundAdd)
    end.
Proof.
  intros Hadd Hint. unfold _rule_based_parse. rewrite Hadd, Hint. cbn [result_bind].
  destruct (find_sku (normalise text)) as [s|] eqn:Hs; [|reflexivity].
  by rewrite (find_sku_truthy _ _ Hs).
Qed.

(** The update branch, once the sku is known and the quantity is read. *)
Lemma parse_update text s q :
  classify (normalise text) = Some IUpdate ->
  find_sku (normalise text) = Some s ->
  update_quantity (normalise text) = Ok q ->
  _rule_based_parse text =
    match update_name (normalise text), q, update_price (normalise text) with
    | None, None, None => Raise (AgentParseError NothingToUpdate)
    | nm, q, p => Ok (Update (upper s) nm q p)
    end.
Proof.
  intros (Hadd & Hsub & Hupd)%classify_update Hs Hq.
  unfold _rule_based_parse. rewrite Hadd, Hsub, Hupd, Hs.
  rewrite (find_sku_truthy _ _ Hs), Hq. simpl.
  by destruct (update_name _), q, (update_price _).
Qed.

Lemma parse_update_no_sku text :
  classify (normalise text) = Some IUpdate ->
  find_sku (normalise text) = None ->
  _rule_based_parse text = Raise (AgentParseError SkuNotFoundUpdate).
Proof.
  intros (Hadd & Hsub & Hupd)%classify_update Hs.
  unfold _rule_based_parse. by rewrite Hadd, Hsub, Hupd, Hs.
Qed.

(** The subtract and delete branches. *)
Lemma parse_subtract text n :
  add_keyword (normalise text) = false ->
  subtract_keyword (normalise text) = true ->
  _find_int (normalise text) = Ok n ->
  _rule_based_parse text =
    match find_sku (normalise text) with
    | Some s => Ok (Subtract (upper s) (or_value n 1))
    | None => Raise (AgentParseError SkuNotFoundSubtract)
    end.
Proof.
  intros Hadd Hsub Hint. unfold _rule_based_parse. rewrite Hadd, Hsub, Hint. cbn [result_bind].
  destruct (find_sku (normalise text)) as [s|] eqn:Hs; [|reflexivity].
  by rewrite (find_sku_truthy _ _ Hs).
Qed.

Lemma parse_subtract_raises text e :
  add_keyword (normalise text) = false ->
  subtract_keyword (normalise text) = true ->
  _find_int (normalise text) = Raise e ->
  _rule_based_parse text = Raise e.
Proof.
  intros Hadd Hsub Hint. unfold _rule_based_parse. by rewrite Hadd, Hsub, Hint.
Qed.

Lemma parse_delete text :
  add_keyword (normalise text) = false ->
  subtract_keyword (normalise text) = false ->
  update_keyword (normalise text) = false ->
  delete_keyword (normalise text) = true ->
  _rule_based_parse text =
    match find_sku (normalise text) with
    | Some s => Ok (Delete (upper s))
    | None => Raise (AgentParseError SkuNotFoundDelete)
    end.
Proof.
  intros Hadd Hsub Hupd Hdel. unfold _rule_based_parse.
  rewrite Hadd, Hsub, Hupd, Hdel.
  destruct (find_sku (normalise text)) as [s|] eqn:Hs; [|reflexivity].
  by rewrite (find_sku_truthy _ _ Hs).
Qed.

(** The parser raises its own [AgentParseError], or the [ValueError] of
    an [int] on more than 4300 digits. *)
Lemma parse_raises text e :
  _rule_based_parse text = Raise e ->
  (exists m, e = AgentParseError m) \/ e = ValueError ExceedsDigitLimit.
Proof.
  unfold _rule_based_parse.
  destruct (add_keyword _); [|destruct (subtract_keyword _);
    [|destruct (update_keyword _); [|destruct (delete_keyword _)]]].
  - destruct (_find_int _) as [n|e'] eqn:Hn; cbn [result_bind].
    + destruct (find_sku _) as [g|]; [|intros [= <-]; by eauto].
      destruct (truthy g); simpl; [done|intros [= <-]; by eauto].
    + intros [= <-]. right. by eapply _find_int_raises.
  - destruct (_find_int _) as [n|e'] eqn:Hn; cbn [result_bind].
    + destruct (find_sku _) as [g|]; [|intros [= <-]; by eauto].
      destruct (truthy g); simpl; [done|intros [= <-]; by eauto].
    + intros [= <-]. right. by eapply _find_int_raises.
  - destruct (find_sku _) as [g|]; [|intros [= <-]; by eauto].
    destruct (truthy g); simpl; [|intros [= <-]; by eauto].
    destruct (update_quantity _) as [q|e'] eqn:Hq; cbn [result_bind].
    + destruct (Nat.eqb _ _); [intros [= <-]; by eauto|done].
    + intros [= <-]. right. by eapply update_quantity_raises.
  - destruct (find_sku _) as [g|]; [|intros [= <-]; by eauto].
    destruct (truthy g); simpl; [done|intros [= <-]; by eauto].
  - intros [= <-]. by eauto.
Qed.

(** Unless [int] raises, the result comes from the branch the
    precedence of the keywords gives. *)
Lemma intent_of_parse text :
  intent_of (_rule_based_parse text) = classify (normalise text) \/
  _rule_based_parse text = Raise (ValueError ExceedsDigitLimit).
Proof.
  unfold _rule_based_parse, classify.
  destruct (add_keyword _); [|destruct (subtract_keyword _);
    [|destruct (update_keyword _); [|destruct (delete_keyword _)]]].
  - destruct (_find_int _) as [n|e'] eqn:Hn; cbn [result_bind].
    + left. destruct (find_sku _) as [g|]; [|done]. by destruct (truthy g).
    + right. by rewrite (_find_int_raises _ _ Hn).
  - destruct (_find_int _) as [n|e'] eqn:Hn; cbn [result_bind].
    + left. destruct (find_sku _) as [g|]; [|done]. by destruct (truthy g).
    + right. by rewrite (_find_int_raises _ _ Hn).
  - destruct (find_sku _) as [g|]; [|by left].
    destruct (truthy g); simpl; [|by left].
    destruct (update_quantity _) as [q|e'] eqn:Hq; cbn [result_bind].
    + left. by destruct (Nat.eqb _ _).
    + right. by rewrite (update_quantity_raises _ _ Hq).
  - left. destruct (find_sku _) as [g|]; [|done]. by destruct (truthy g).
  - by left.
Qed.

End parser_lemmas.

(** * Checks of the model on concrete inputs *)

Section checks.
Local Open Scope string_scope.
Local Open Scope nat_scope.

Example space_codes :
  codes_of is_space = [9; 10; 11; 12; 13; 28; 29; 30; 31; 32; 133; 160].
Proof. vm_compute. reflexivity. Qed.

Example token_codes :
  codes_of is_token_char
  = ([45] ++ List.seq 48 10 ++ [95] ++ List.seq 97 26)%list.
Proof. vm_compute. reflexivity. Qed.

Example word_codes :
  codes_of is_word
  = (List.seq 48 10 ++ List.seq 65 26 ++ [95] ++ List.seq 97 26
     ++ [170; 178; 179; 181; 185; 186; 188; 189; 190]
     ++ List.seq 192 23 ++ List.seq 216 31 ++ List.seq 248 8)%list.
Proof. vm_compute. reflexivity. Qed.

Example lowered_codes :
  codes_of (fun c => negb (Ascii.eqb (lower_char c) c))
  = (List.seq 65 26 ++ List.seq 192 23 ++ List.seq 216 7)%list.
Proof. vm_compute. reflexivity. Qed.

Example title_token : title "blue-ish_thing9a" = "Blue-Ish_Thing9A".
Proof. reflexivity. Qed.

Example find_int_standalone : _find_int "b300 20x 7 8" = Ok (Some 7%Z).
Proof. vm_compute. reflexivity. Qed.

Example find_name_first_longest :
  _find_name "add 3 pears with sku apple" ["add"; "with"; "sku"] = Some "pears".
Proof. vm_compute. reflexivity. Qed.

Example parse_subtract_5 :
  _rule_based_parse "subtract 5 sku B300" = Ok (Subtract "B300" 5).
Proof. vm_compute. reflexivity. Qed.

Example parse_update_price :
  _rule_based_parse "update sku B300 price 12.5"
  = Ok (Update "B300" None None (Some (25 # 2))).
Proof. vm_compute. reflexivity. Qed.

Example parse_no_verb :
  _rule_based_parse "how many bananas are left" = Raise (AgentParseError NotRecognized).
Proof. vm_compute. reflexivity. Qed.

Example list_items_in_sku_order :
  fst (Store.list_items
         (history [AddItem "t0" "B2" "Pears" 1 2; AddItem "t1" "A1" "Apples" 5 (3 # 2)]))
  = Ok [Item "A1" "Apples" 5 (3 # 2) "t1"; Item "B2" "Pears" 1 2 "t0"].
Proof. vm_compute. reflexivity. Qed.

Example upsert_existing :
  Store.add_or_update "t1" "t2" "A1" "Apples" 7 2 apples
  = (Ok tt, {["A1" := Cells "Apples" 7 2 "t2"]}).
Proof. vm_compute. reflexivity. Qed.

End checks.

(** * The claims about the store *)

Section store_claims.
Local Open Scope string_scope.
Implicit Types (db : table) (k : string) (c : cells).

(** C1, as the code has it. For a sku that is not in the store, any name,
    a quantity from 0 to 2^63 - 1 (what an INTEGER column holds) and a
    price >= 0, [add_item] succeeds, [get_item] of that sku then returns
    the record with exactly those four values (and the time of the call),
    and [list_items] includes that record. *)
Theorem add_item_then_get_item db now k nm q p :
  db !! k = None -> 0 <= q < 2 ^ 63 -> (0 <= p)%Q ->
  exists db' l,
    Store.add_item now k nm q p db = (Ok tt, db') /\
    Store.get_item k db' = (Ok (Some (Item k nm q p now)), db') /\
    Store.list_items db' = (Ok l, db') /\
    Item k nm q p now ∈ l.
Proof.
  intros Hk Hq Hp.
  destruct (list_items_ok (<[k := Cells nm q p now]> db)) as (l & Hl & Hin).
  exists (<[k := Cells nm q p now]> db), l. split; [|split; [|split]].
  - by apply add_item_fresh.
  - rewrite get_item_lookup, lookup_insert_eq. reflexivity.
  - exact Hl.
  - apply (Hin k (Cells nm q p now)). apply lookup_insert_eq.
Qed.

Lemma add_item_then_get_item_witness :
  (∅ : table) !! "B300" = None /\ 0 <= 20 < 2 ^ 63 /\ (0 <= 90)%Q /\
  exists db' l,
    Store.add_item "2024-01-01 10:00:00" "B300" "Bananas" 20 90 ∅ = (Ok tt, db') /\
    Store.get_item "B300" db'
    = (Ok (Some (Item "B300" "Bananas" 20 90 "2024-01-01 10:00:00")), db') /\
    Store.list_items db' = (Ok l, db') /\
    Item "B300" "Bananas" 20 90 "2024-01-01 10:00:00" ∈ l.
Proof.
  split; [reflexivity|]. split; [lia|]. split; [unfold Qle; simpl; lia|].
  apply (add_item_then_get_item ∅ "2024-01-01 10:00:00" "B300" "Bananas" 20 90).
  - reflexivity.
  - lia.
  - unfold Qle; simpl; lia.
Defined.

(** C1 as stated fails: the quantity 2^63 is >= 0, yet [add_item] of a
    new sku with it raises [OverflowError] and stores nothing. *)
Lemma add_item_quantity_too_large :
  (∅ : table) !! "W1" = None /\ 0 <= 2 ^ 63 /\ (0 <= 1)%Q /\
  Store.add_item "2024-01-01 10:00:00" "W1" "Widgets" (2 ^ 63) 1 ∅
  = (Raise OverflowError, ∅) /\
  Store.get_item "W1" ∅ = (Ok None, ∅).
Proof.
  split; [reflexivity|]. split; [lia|]. split; [unfold Qle; simpl; lia|].
  split; vm_compute; reflexivity.
Qed.

(** C2. In every table reached from the empty store by a sequence of
    [add_item], [add_or_update], [subtract_quantity], [update_item] and
    [delete_item] calls, whether they return or raise, every stored row
    has quantity >= 0 and price >= 0. *)
Theorem history_nonnegative (ops : list operation) k c :
  history ops !! k = Some c -> 0 <= c_quantity c /\ (0 <= c_price c)%Q.
Proof.
  assert (forall db, table_ok db -> table_ok (fold_left perform ops db)) as H.
  { induction ops as [|o ops IH]; intros db Hdb; simpl; [done|].
    apply IH. by apply perform_table_ok. }
  intros Hk. destruct (H ∅ table_ok_empty k c Hk) as [Hq Hp]. split; [lia|done].
Qed.

Lemma history_nonnegative_witness :
  history [AddItem "t0" "A1" "Apples" 5 (3 # 2);
           AddItem "t1" "A2" "Pears" (-1) 2;
           SubtractQuantity "t2" "A1" 2;
           UpdateItem "t3" "A1" None None (Some (-1)%Q)] !! "A1"
  = Some (Cells "Apples" 3 (3 # 2) "t2") /\
  0 <= c_quantity (Cells "Apples" 3 (3 # 2) "t2") /\
  (0 <= c_price (Cells "Apples" 3 (3 # 2) "t2"))%Q.
Proof.
  split; [vm_compute; reflexivity|].
  apply (history_nonnegative
           [AddItem "t0" "A1" "Apples" 5 (3 # 2);
            AddItem "t1" "A2" "Pears" (-1) 2;
            SubtractQuantity "t2" "A1" 2;
            UpdateItem "t3" "A1" None None (Some (-1)%Q)] "A1").
  vm_compute; reflexivity.
Defined.

(** C3, as the code has it. For a sku in the store with quantity [c]:
    when [qty > c], [subtract_quantity] raises a [ValueError] and leaves
    the table as it was: the insufficient-stock error, or, when [qty] or
    [c] has more than 4300 digits, the error of formatting them in its
    message; when [qty <= c] and [c - qty] is at most 2^63 - 1 (what an
    INTEGER column holds), it returns [c - qty] and the row's quantity
    is [c - qty], its name and price being kept and the other rows
    untouched. *)
Theorem subtract_quantity_spec db now k qty c :
  db !! k = Some c ->
  (c_quantity c < qty ->
   Store.subtract_quantity now k qty db
   = (Raise (ValueError (if printable qty && printable (c_quantity c)
                         then CannotSubtract qty (c_quantity c)
                         else ExceedsDigitLimit)), db)) /\
  (qty <= c_quantity c -> c_quantity c - qty < 2 ^ 63 ->
   exists db',
     Store.subtract_quantity now k qty db = (Ok (c_quantity c - qty), db') /\
     db' !! k = Some (Cells (c_name c) (c_quantity c - qty) (c_price c) now) /\
     forall k', k' <> k -> db' !! k' = db !! k').
Proof.
  intros Hk. split; [intros Hq|intros Hq Hfit].
  - by apply subtract_quantity_insufficient.
  - eexists. split; [by apply subtract_quantity_enough|]. split.
    + apply lookup_insert_eq.
    + intros k' Hne. by apply lookup_insert_ne.
Qed.

Lemma subtract_quantity_spec_witness :
  apples !! "A1" = Some (Cells "Apples" 5 (3 # 2) "t0") /\
  (5 < 9 /\
   Store.subtract_quantity "t1" "A1" 9 apples
   = (Raise (ValueError (CannotSubtract 9 5)), apples)) /\
  (2 <= 5 /\ 5 - 2 < 2 ^ 63 /\
   exists db',
     Store.subtract_quantity "t1" "A1" 2 apples = (Ok 3, db') /\
     db' !! "A1" = Some (Cells "Apples" 3 (3 # 2) "t1") /\
     forall k', k' <> "A1" -> db' !! k' = apples !! k').
Proof.
  split; [reflexivity|]. split.
  - split; [lia|].
    rewrite (proj1 (subtract_quantity_spec apples "t1" "A1" 9
                      (Cells "Apples" 5 (3 # 2) "t0") eq_refl)).
    + vm_compute. reflexivity.
    + simpl. lia.
  - split; [lia|]. split; [lia|].
    apply (proj2 (subtract_quantity_spec apples "t1" "A1" 2
                    (Cells "Apples" 5 (3 # 2) "t0") eq_refl)).
    + simpl. lia.
    + simpl. lia.
Defined.

(** C3 as stated fails: with 5 in stock, [qty = 5 - 2^63] is below the
    stock, yet [subtract_quantity] raises [OverflowError], not returning
    the new quantity 2^63, and the row is as before; and [qty = 10^4300]
    is above the stock, yet the [ValueError] raised is the one of the
    formatting of [qty], not the insufficient-stock error. *)
Lemma subtract_quantity_result_too_large :
  apples !! "A1" = Some (Cells "Apples" 5 (3 # 2) "t0") /\
  (5 - 2 ^ 63 <= 5 /\
   Store.subtract_quantity "t1" "A1" (5 - 2 ^ 63) apples = (Raise OverflowError, apples)) /\
  (5 < digit_limit /\
   Store.subtract_quantity "t1" "A1" digit_limit apples
   = (Raise (ValueError ExceedsDigitLimit), apples)).
Proof.
  assert (5 < digit_limit) as Hlt by (pose proof integer_below_digit_limit; lia).
  split; [reflexivity|]. split.
  - split; [lia|]. vm_compute. reflexivity.
  - split; [exact Hlt|].
    rewrite (subtract_quantity_insufficient apples "t1" "A1" digit_limit
               (Cells "Apples" 5 (3 # 2) "t0") eq_refl Hlt).
    unfold Store.cannot_subtract, printable.
    rewrite Z.abs_eq by lia. by rewrite Z.ltb_irrefl.
Qed.

(** C4. For a sku already in the store, [add_item] with any name,
    quantity and price raises the already-exists error and leaves the
    table, hence the existing row with its name, quantity, price and
    updated_at, unchanged. *)
Theorem add_item_duplicate db now k nm q p c :
  db !! k = Some c ->
  Store.add_item now k nm q p db = (Raise (ValueError (AlreadyExists k)), db) /\
  snd (Store.add_item now k nm q p db) !! k = Some c.
Proof.
  intros Hk. rewrite (add_item_present db now k nm q p c Hk). by split.
Qed.

Lemma add_item_duplicate_witness :
  apples !! "A1" = Some (Cells "Apples" 5 (3 # 2) "t0") /\
  Store.add_item "t1" "A1" "Pears" (-4) 7 apples
  = (Raise (ValueError (AlreadyExists "A1")), apples) /\
  snd (Store.add_item "t1" "A1" "Pears" (-4) 7 apples) !! "A1"
  = Some (Cells "Apples" 5 (3 # 2) "t0").
Proof.
  split; [reflexivity|].
  apply (add_item_duplicate apples "t1" "A1" "Pears" (-4) 7
           (Cells "Apples" 5 (3 # 2) "t0")).
  reflexivity.
Defined.

(** C7, as the code has it. [update_item] with name, quantity and price
    all absent returns without touching the table (updated_at included).
    When the sku is in the store and at least one of the three is
    supplied, with a supplied quantity from 0 to 2^63 - 1 (what an
    INTEGER column holds) and a supplied price >= 0, the call succeeds,
    the row takes the supplied values and the time of the call as
    updated_at, every field not supplied keeps its value, and the other
    rows are untouched. *)
Theorem update_item_frame db now k :
  Store.update_item now k None None None db = (Ok tt, db) /\
  forall nm q p c,
    db !! k = Some c ->
    (nm, q, p) <> (None, None, None) ->
    (forall v, q = Some v -> 0 <= v < 2 ^ 63) ->
    (forall v, p = Some v -> (0 <= v)%Q) ->
    exists db',
      Store.update_item now k nm q p db = (Ok tt, db') /\
      db' !! k = Some (Cells (default (c_name c) nm) (default (c_quantity c) q)
                             (default (c_price c) p) now) /\
      forall k', k' <> k -> db' !! k' = db !! k'.
Proof.
  split; [reflexivity|].
  intros nm q p c Hk Hsome Hq Hp. eexists. split.
  - by apply update_item_supplied.
  - split; [apply lookup_insert_eq|].
    intros k' Hne. by apply lookup_insert_ne.
Qed.

Lemma update_item_frame_witness :
  apples !! "A1" = Some (Cells "Apples" 5 (3 # 2) "t0") /\
  exists db',
    Store.update_item "t1" "A1" None (Some 8) None apples = (Ok tt, db') /\
    db' !! "A1" = Some (Cells "Apples" 8 (3 # 2) "t1") /\
    forall k', k' <> "A1" -> db' !! k' = apples !! k'.
Proof.
  split; [reflexivity|].
  apply (proj2 (update_item_frame apples "t1" "A1") None (Some 8) None
           (Cells "Apples" 5 (3 # 2) "t0")).
  - reflexivity.
  - discriminate.
  - intros v [= <-]. lia.
  - intros v [=].
Defined.

(** C7 as stated fails: the quantity 2^63 is >= 0, yet [update_item] of a
    stored sku with it raises [OverflowError] and the row is as before. *)
Lemma update_item_quantity_too_large :
  apples !! "A1" = Some (Cells "Apples" 5 (3 # 2) "t0") /\
  0 <= 2 ^ 63 /\
  Store.update_item "t1" "A1" None (Some (2 ^ 63)) None apples
  = (Raise OverflowError, apples).
Proof.
  split; [reflexivity|]. split; [lia|]. vm_compute. reflexivity.
Qed.

(** C10, as the code has it. [subtract_quantity] does not ask for a
    positive [qty]: for a sku in the store with quantity [c] and any
    integer [qty <= c], zero and negative ones included, whose result
    [c - qty] is at most 2^63 - 1 (what an INTEGER column holds), it
    returns [c - qty] and stores it, so a negative [qty] leaves strictly
    more stock than before. *)
Theorem subtract_quantity_any_sign db now k qty c :
  db !! k = Some c -> qty <= c_quantity c -> c_quantity c - qty < 2 ^ 63 ->
  exists db' c',
    Store.subtract_quantity now k qty db = (Ok (c_quantity c - qty), db') /\
    db' !! k = Some c' /\
    c_quantity c' = c_quantity c - qty /\
    (qty = 0 -> c_quantity c' = c_quantity c) /\
    (qty < 0 -> c_quantity c < c_quantity c').
Proof.
  intros Hk Hq Hfit. do 2 eexists. split; [by apply subtract_quantity_enough|].
  split; [apply lookup_insert_eq|]. simpl. repeat split; lia.
Qed.

Lemma subtract_quantity_any_sign_witness :
  apples !! "A1" = Some (Cells "Apples" 5 (3 # 2) "t0") /\ -3 <= 5 /\
  5 - -3 < 2 ^ 63 /\
  exists db' c',
    Store.subtract_quantity "t1" "A1" (-3) apples = (Ok 8, db') /\
    db' !! "A1" = Some c' /\
    c_quantity c' = 8 /\
    (-3 = 0 -> c_quantity c' = 5) /\
    (-3 < 0 -> 5 < c_quantity c').
Proof.
  split; [reflexivity|]. split; [lia|]. split; [lia|].
  apply (subtract_quantity_any_sign apples "t1" "A1" (-3)
           (Cells "Apples" 5 (3 # 2) "t0")).
  - reflexivity.
  - simpl. lia.
  - simpl. lia.
Defined.

(** C10 as stated fails: with 5 in stock, [qty = - 2^63] is below the
    stock, yet [subtract_quantity] raises [OverflowError] and the stock
    is still 5. *)
Lemma subtract_quantity_negative_too_large :
  apples !! "A1" = Some (Cells "Apples" 5 (3 # 2) "t0") /\
  - 2 ^ 63 <= 5 /\
  Store.subtract_quantity "t1" "A1" (- 2 ^ 63) apples = (Raise OverflowError, apples).
Proof.
  split; [reflexivity|]. split; [lia|]. vm_compute. reflexivity.
Qed.

End store_claims.

(** * The claims about the parser *)

Section parser_claims.
Local Open Scope string_scope.

(** C5, as the code has it. The branch of [_rule_based_parse] is chosen
    by the precedence add keywords > subtract keywords > update keywords >
    delete keywords, on the keywords alone and whether or not the text
    has a quantity; the one result that is not of the chosen branch is
    the [ValueError] of [int] on more than 4300 digits. A text that
    contains " remove " and no add keyword is a subtract, of the first
    standalone integer or 1, unless that integer has more than 4300
    digits; a text that starts with "remove" and has no add, subtract or
    update keyword is a delete, of the sku that follows "sku" or "code";
    "remove 3 sku B1" parses as the delete of B1. *)
Theorem rule_based_parse_precedence :
  (forall text,
     intent_of (_rule_based_parse text) = classify (normalise text) \/
     _rule_based_parse text = Raise (ValueError ExceedsDigitLimit)) /\
  (forall text,
     add_keyword (normalise text) = false ->
     contains " remove " (normalise text) = true ->
     _rule_based_parse text =
       match _find_int (normalise text) with
       | Ok n =>
           match find_sku (normalise text) with
           | Some s => Ok (Subtract (upper s) (or_value n 1))
           | None => Raise (AgentParseError SkuNotFoundSubtract)
           end
       | Raise _ => Raise (ValueError ExceedsDigitLimit)
       end) /\
  (forall text,
     add_keyword (normalise text) = false ->
     subtract_keyword (normalise text) = false ->
     update_keyword (normalise text) = false ->
     startswith (normalise text) "remove" = true ->
     _rule_based_parse text =
       match find_sku (normalise text) with
       | Some s => Ok (Delete (upper s))
       | None => Raise (AgentParseError SkuNotFoundDelete)
       end) /\
  _rule_based_parse "remove 3 sku B1" = Ok (Delete "B1").
Proof.
  split; [apply intent_of_parse|]. split; [|split].
  - intros text Hadd Hrm.
    assert (subtract_keyword (normalise text) = true) as Hsub.
    { unfold subtract_keyword. rewrite Hrm. by rewrite !orb_true_r. }
    destruct (_find_int (normalise text)) as [n|e] eqn:Hint.
    + by apply parse_subtract.
    + rewrite (parse_subtract_raises text e Hadd Hsub Hint).
      by rewrite (_find_int_raises _ _ Hint).
  - intros text Hadd Hsub Hupd Hrm. apply parse_delete; try done.
    unfold delete_keyword. rewrite Hrm. by rewrite orb_true_r.
  - vm_compute. reflexivity.
Qed.

Lemma rule_based_parse_precedence_witness :
  (add_keyword (normalise "please remove 4 code x-1") = false /\
   contains " remove " (normalise "please remove 4 code x-1") = true /\
   _rule_based_parse "please remove 4 code x-1" = Ok (Subtract "X-1" 4)) /\
  (add_keyword (normalise "Remove sku B1") = false /\
   subtract_keyword (normalise "Remove sku B1") = false /\
   update_keyword (normalise "Remove sku B1") = false /\
   startswith (normalise "Remove sku B1") "remove" = true /\
   _rule_based_parse "Remove sku B1" = Ok (Delete "B1")).
Proof.
  split.
  - split; [reflexivity|]. split; [reflexivity|].
    rewrite (proj1 (proj2 rule_based_parse_precedence) "please remove 4 code x-1");
      vm_compute; reflexivity.
  - split; [reflexivity|]. split; [reflexivity|]. split; [reflexivity|].
    split; [reflexivity|].
    rewrite (proj1 (proj2 (proj2 rule_based_parse_precedence)) "Remove sku B1");
      vm_compute; reflexivity.
Defined.

(** C5 as stated fails: "remove 3 sku B1" has a quantity pattern (its
    first standalone integer is 3), yet it parses as a delete and not as
    a subtract; "please remove sku B1" has no quantity pattern and a
    "sku" token after "remove", yet it parses as a subtract, of 1; and a
    command with an add keyword whose quantity has 4301 digits is not
    parsed as an add, or at all: [int] raises its [ValueError]. *)
Lemma remove_with_quantity_is_delete :
  (_find_int (normalise "remove 3 sku B1") = Ok (Some 3) /\
   _rule_based_parse "remove 3 sku B1" = Ok (Delete "B1") /\
   intent_of (_rule_based_parse "remove 3 sku B1") <> Some ISubtract) /\
  (_find_int (normalise "please remove sku B1") = Ok None /\
   _rule_based_parse "please remove sku B1" = Ok (Subtract "B1" 1)) /\
  (classify (normalise add_long_number) = Some IAdd /\
   _rule_based_parse add_long_number = Raise (ValueError ExceedsDigitLimit)).
Proof.
  split; [|split].
  - split; [vm_compute; reflexivity|]. split; [vm_compute; reflexivity|].
    vm_compute. discriminate.
  - split; vm_compute; reflexivity.
  - split; vm_compute; reflexivity.
Qed.

(** C6. The rule-based parse of "add 20 bananas with sku B300 price 90"
    is the add action with sku "B300", name "Bananas", quantity 20 and
    price 90.0. *)
Theorem parse_add_bananas :
  _rule_based_parse "add 20 bananas with sku B300 price 90"
  = Ok (Add "B300" "Bananas" 20 90).
Proof. vm_compute. reflexivity. Qed.

(** C8. A text that is classified as an update, in which a sku token is
    found and in which no integer follows "qty" or "quantity", no decimal
    follows "price" and no word follows "name", fails to parse with an
    [AgentParseError]; "update sku B300" is such a text. *)
Theorem update_without_fields :
  (forall text s,
     classify (normalise text) = Some IUpdate ->
     find_sku (normalise text) = Some s ->
     _find_int_after (normalise text) "qty" = Ok None ->
     _find_int_after (normalise text) "quantity" = Ok None ->
     _find_float_after (normalise text) "price" = None ->
     _find_after (normalise text) "name" = None ->
     _rule_based_parse text = Raise (AgentParseError NothingToUpdate)) /\
  _rule_based_parse "update sku B300" = Raise (AgentParseError NothingToUpdate).
Proof.
  split; [|vm_compute; reflexivity].
  intros text s Hupd Hs Hqty Hquantity Hprice Hname.
  assert (update_quantity (normalise text) = Ok None) as Hq.
  { unfold update_quantity. rewrite Hqty. simpl. exact Hquantity. }
  rewrite (parse_update text s None Hupd Hs Hq).
  unfold update_name, update_price. by rewrite Hprice, Hname.
Qed.

Lemma update_without_fields_witness :
  classify (normalise "Please change code X-9") = Some IUpdate /\
  find_sku (normalise "Please change code X-9") = Some "x-9" /\
  _find_int_after (normalise "Please change code X-9") "qty" = Ok None /\
  _find_int_after (normalise "Please change code X-9") "quantity" = Ok None /\
  _find_float_after (normalise "Please change code X-9") "price" = None /\
  _find_after (normalise "Please change code X-9") "name" = None /\
  _rule_based_parse "Please change code X-9" = Raise (AgentParseError NothingToUpdate).
Proof.
  repeat (split; [vm_compute; reflexivity|]).
  apply (proj1 update_without_fields "Please change code X-9" "x-9");
    vm_compute; reflexivity.
Defined.

(** C9, as the code has it. A zero is coerced to the absent case by
    [or]: in an add-classified text whose first standalone integer is 0
    the action has quantity 1; in an update-classified text where the
    integer after "qty" is 0 and no integer follows "quantity", the
    action has no quantity, so that with no price and no name either the
    parse fails with an [AgentParseError]. *)
Theorem zero_quantity_coerced :
  (forall text,
     classify (normalise text) = Some IAdd ->
     _find_int (normalise text) = Ok (Some 0) ->
     match find_sku (normalise text) with
     | Some s => exists name price,
                   _rule_based_parse text = Ok (Add (upper s) name 1 price)
     | None => _rule_based_parse text = Raise (AgentParseError SkuNotFoundAdd)
     end) /\
  (forall text,
     classify (normalise text) = Some IUpdate ->
     _find_int_after (normalise text) "qty" = Ok (Some 0) ->
     _find_int_after (normalise text) "quantity" = Ok None ->
     _rule_based_parse text =
       match find_sku (normalise text) with
       | Some s =>
           match update_name (normalise text), update_price (normalise text) with
           | None, None => Raise (AgentParseError NothingToUpdate)
           | nm, p => Ok (Update (upper s) nm None p)
           end
       | None => Raise (AgentParseError SkuNotFoundUpdate)
       end).
Proof.
  split.
  - intros text Hadd%classify_add Hint.
    rewrite (parse_add text (Some 0) Hadd Hint).
    destruct (find_sku (normalise text)); [|reflexivity]. eauto.
  - intros text Hupd Hqty Hquantity.
    destruct (find_sku (normalise text)) as [s|] eqn:Hs.
    + assert (update_quantity (normalise text) = Ok None) as Hq.
      { unfold update_quantity. rewrite Hqty. simpl. exact Hquantity. }
      rewrite (parse_update text s None Hupd Hs Hq).
      by destruct (update_name _), (update_price _).
    + by apply parse_update_no_sku.
Qed.

Lemma zero_quantity_coerced_witness :
  (classify (normalise "add 0 apples sku a1") = Some IAdd /\
   _find_int (normalise "add 0 apples sku a1") = Ok (Some 0) /\
   match find_sku (normalise "add 0 apples sku a1") with
   | Some s => exists name price,
                 _rule_based_parse "add 0 apples sku a1" = Ok (Add (upper s) name 1 price)
   | None => _rule_based_parse "add 0 apples sku a1" = Raise (AgentParseError SkuNotFoundAdd)
   end) /\
  (classify (normalise "update sku b1 qty 0 price 3") = Some IUpdate /\
   _find_int_after (normalise "update sku b1 qty 0 price 3") "qty" = Ok (Some 0) /\
   _find_int_after (normalise "update sku b1 qty 0 price 3") "quantity" = Ok None /\
   _rule_based_parse "update sku b1 qty 0 price 3"
   = Ok (Update "B1" None None (Some 3%Q))).
Proof.
  split.
  - split; [vm_compute; reflexivity|]. split; [vm_compute; reflexivity|].
    apply (proj1 zero_quantity_coerced "add 0 apples sku a1");
      vm_compute; reflexivity.
  - split; [vm_compute; reflexivity|]. split; [vm_compute; reflexivity|].
    split; [vm_compute; reflexivity|].
    rewrite (proj2 zero_quantity_coerced "update sku b1 qty 0 price 3");
      vm_compute; reflexivity.
Defined.

(** C9 as stated fails: "update sku b1 qty 0 quantity 0" is classified
    as an update and supplies "qty 0", yet its action carries the
    quantity 0. *)
Lemma zero_qty_kept_when_quantity_follows :
  classify (normalise "update sku b1 qty 0 quantity 0") = Some IUpdate /\
  _find_int_after (normalise "update sku b1 qty 0 quantity 0") "qty" = Ok (Some 0) /\
  _rule_based_parse "update sku b1 qty 0 quantity 0"
  = Ok (Update "B1" None (Some 0) None).
Proof. repeat split; vm_compute; reflexivity. Qed.

End parser_claims.

(** * Further properties of the store *)

Section store_more_lemmas.
#[local] Existing Instance Store.sku_le_dec.
Implicit Types (db : table) (k : string) (c : cells).

Lemma string_leb_ltb (x y : string) :
  String.leb x y = true -> x <> y -> String.ltb x y = true.
Proof.
  unfold String.leb, String.ltb. intros Hle Hne.
  destruct (String.compare x y) eqn:Hc; try done.
  by apply String.compare_eq_iff in Hc.
Qed.

Lemma sku_le_total : Total Store.sku_le.
Proof. intros x y. apply String.leb_total. Qed.

(** Sorted pairs with distinct keys give rows in strictly ascending
    order of sku. *)
Lemma sorted_rows (l : list (string * cells)) :
  Sorted Store.sku_le l -> NoDup l.*1 ->
  Sorted sku_lt ((fun kc => as_item kc.1 kc.2) <$> l).
Proof.
  induction 1 as [|x l Hl IH Hhd]; intros Hnd; [constructor|].
  apply NoDup_cons in Hnd as [Hx Hnd]. simpl. constructor; [by apply IH|].
  destruct Hhd as [|y l Hxy]; simpl; constructor.
  unfold sku_lt. simpl. apply string_leb_ltb; [exact Hxy|].
  intros Heq. apply Hx. simpl. rewrite Heq. by left.
Qed.

Lemma list_items_eq db :
  Store.list_items db
  = (Ok ((fun kc => as_item kc.1 kc.2) <$> merge_sort Store.sku_le (map_to_list db)), db).
Proof. reflexivity. Qed.

(** A new row that [SCHEMA] refuses: the quantity is bound first, then
    the CHECK constraints are tested. *)
Lemma add_item_invalid db now k nm q p :
  db !! k = None -> q < 0 \/ (p < 0)%Q ->
  exists e, (e = OverflowError \/ exists v, v <> UniqueSku /\ e = IntegrityError v) /\
    Store.add_item now k nm q p db = (Raise e, db).
Proof.
  intros Hk Hbad. rewrite (add_item_absent db now k nm q p Hk).
  destruct (fits_integer q); simpl; [|by eauto].
  destruct (Z.ltb_spec q 0) as [Hq|Hq].
  { eexists. split; [right; exists CheckQuantity; by split|done]. }
  destruct (price_nonneg p) eqn:Hp; simpl.
  - apply price_nonneg_true in Hp. destruct Hbad as [?|Hlt]; [lia|].
    by apply Qlt_not_le in Hlt.
  - eexists. split; [right; exists CheckPrice; by split|done].
Qed.

Lemma price_neg_true (p : Q) : price_neg p = true <-> (p < 0)%Q.
Proof.
  unfold price_neg. rewrite negb_true_iff. split.
  - intros Hp. apply Qnot_le_lt. intros Hle. apply Qle_bool_iff in Hle. congruence.
  - intros Hlt. destruct (Qle_bool 0 p) eqn:Hp; [|done].
    apply Qle_bool_iff in Hp. by apply Qlt_not_le in Hlt.
Qed.

End store_more_lemmas.

Section store_extras.
#[local] Existing Instance Store.sku_le_dec.
Implicit Types (db : table) (k : string) (c : cells).

(** X1. [delete_item] of a sku in the store removes that row and no
    other; [get_item] then returns [None], and a second [delete_item]
    raises the not-found error. *)
Theorem delete_item_then_get_item db k c :
  db !! k = Some c ->
  exists db',
    Store.delete_item k db = (Ok tt, db') /\
    Store.get_item k db' = (Ok None, db') /\
    (forall k', k' <> k -> db' !! k' = db !! k') /\
    Store.delete_item k db' = (Raise (ValueError (NotFound k)), db').
Proof.
  intros Hk. exists (delete k db). split; [by eapply delete_item_present|].
  split; [by rewrite get_item_lookup, lookup_delete_eq|].
  split; [intros k' Hne; by apply lookup_delete_ne|].
  apply delete_item_absent, lookup_delete_eq.
Qed.

Lemma delete_item_then_get_item_witness :
  apples !! "A1"%string = Some (Cells "Apples" 5 (3 # 2) "t0") /\
  exists db',
    Store.delete_item "A1" apples = (Ok tt, db') /\
    Store.get_item "A1" db' = (Ok None, db') /\
    (forall k', k' <> "A1"%string -> db' !! k' = apples !! k') /\
    Store.delete_item "A1" db' = (Raise (ValueError (NotFound "A1")), db').
Proof.
  split; [reflexivity|].
  apply (delete_item_then_get_item apples "A1" (Cells "Apples" 5 (3 # 2) "t0")).
  reflexivity.
Defined.

(** X2. [list_items] leaves the table as it is and returns its rows in
    strictly ascending order of sku, each row once: a record is in the
    list exactly when [get_item] of its sku returns it, and the list is
    as long as the table has rows. *)
Theorem list_items_sorted_complete db :
  exists l,
    Store.list_items db = (Ok l, db) /\
    Sorted sku_lt l /\
    (forall it, it ∈ l <-> Store.get_item (sku it) db = (Ok (Some it), db)) /\
    length l = size db.
Proof.
  eexists. split; [apply list_items_eq|]. split; [|split].
  - apply sorted_rows.
    + apply (Sorted_merge_sort _ (Total0 := sku_le_total)).
    + rewrite merge_sort_Permutation. apply NoDup_fst_map_to_list.
  - intros it. rewrite get_item_lookup, list_elem_of_fmap. split.
    + intros ([k c] & -> & Hin). rewrite merge_sort_Permutation in Hin.
      apply elem_of_map_to_list in Hin. simpl. by rewrite Hin.
    + intros [= Hit]. destruct (db !! sku it) as [c|] eqn:Hk; [|done].
      simpl in Hit. exists (sku it, c). split; [by simplify_eq|].
      rewrite merge_sort_Permutation. by apply elem_of_map_to_list.
  - rewrite length_fmap, merge_sort_Permutation. apply length_map_to_list.
Qed.

(** X3. A call that raises leaves the table exactly as it was, whichever
    of the five mutating operations it is. *)
Theorem failed_operation_changes_nothing db o e :
  raises db o = Some e -> perform db o = db.
Proof.
  destruct o as [now k n q p|now now' k n q p|now k q|now k n q p|k]; simpl.
  - unfold Store.add_item, with_conn.
    by destruct (bind _ _ db) as [[|] ?].
  - unfold Store.add_or_update, Store.add_item, Store.update_item, with_conn.
    destruct (bind _ _ db) as [[[]|[m|v|m|]] db1]; simpl; try done.
    destruct (bind _ _ db) as [[|] ?]; by simpl.
  - unfold Store.subtract_quantity, with_conn.
    by destruct (bind _ _ db) as [[|] ?].
  - unfold Store.update_item, with_conn.
    destruct n, q, p; simpl; try done; by destruct (bind _ _ db) as [[|] ?].
  - unfold Store.delete_item, with_conn.
    by destruct (bind _ _ db) as [[|] ?].
Qed.

Lemma failed_operation_changes_nothing_witness :
  raises apples (SubtractQuantity "t1" "A1" 9)
  = Some (ValueError (CannotSubtract 9 5)) /\
  perform apples (SubtractQuantity "t1" "A1" 9) = apples.
Proof.
  split; [reflexivity|].
  apply (failed_operation_changes_nothing apples (SubtractQuantity "t1" "A1" 9)
           (ValueError (CannotSubtract 9 5))).
  reflexivity.
Defined.

End store_extras.

Section store_shape.
Implicit Types (db : table) (k : string) (c : cells).

Lemma add_item_shape db now k nm q p :
  Store.add_item now k nm q p db = (Ok tt, <[k := Cells nm q p now]> db) /\
    db !! k = None /\ 0 <= q < 2 ^ 63 /\ (0 <= p)%Q
  \/ exists e, Store.add_item now k nm q p db = (Raise e, db) /\
       match db !! k with
       | Some _ => e = ValueError (AlreadyExists k)
       | None => e = OverflowError /\ fits_integer q = false
                 \/ (q < 0 \/ (p < 0)%Q) /\ exists v, v <> UniqueSku /\ e = IntegrityError v
       end.
Proof.
  destruct (db !! k) as [c|] eqn:Hk.
  - right. eexists. split; [by eapply add_item_present|]. done.
  - rewrite (add_item_absent db now k nm q p Hk).
    destruct (fits_integer q) eqn:Hfit; simpl; [|by eauto 6].
    apply fits_integer_true in Hfit.
    destruct (Z.ltb_spec q 0) as [Hq|Hq].
    { right. eexists. split; [done|]. right. split; [by left|].
      exists CheckQuantity. by split. }
    destruct (price_nonneg p) eqn:Hp; simpl.
    + apply price_nonneg_true in Hp. left. repeat split; try done; lia.
    + right. eexists. split; [done|]. right. split.
      * right. apply Qnot_le_lt. intros Hle. apply price_nonneg_true in Hle. congruence.
      * exists CheckPrice. by split.
Qed.

Lemma perform_shape db o :
  perform db o = db
  \/ (exists c, perform db o = <[target o := c]> db)
  \/ perform db o = delete (target o) db.
Proof.
  destruct o as [now k n q p|now now' k n q p|now k q|now k n q p|k]; simpl.
  - destruct (add_item_shape db now k n q p) as [[-> _]|(e & -> & _)]; eauto.
  - rewrite add_or_update_cases. destruct (db !! k) as [c|] eqn:Hk.
    + rewrite (update_item_present db now' k (Some n) (Some q) (Some p) c Hk) by done.
      repeat case_match; simpl; eauto.
    + destruct (add_item_shape db now k n q p) as [[-> _]|(e & -> & _)]; eauto.
  - destruct (db !! k) as [c|] eqn:Hk.
    + rewrite (subtract_quantity_present db now k q c Hk).
      repeat case_match; simpl; eauto.
    + rewrite subtract_quantity_absent by done. eauto.
  - assert ((n, q, p) = (None, None, None) \/ (n, q, p) <> (None, None, None))
      as [[= -> -> ->]|Hsome] by (destruct n, q, p; (by left) || (by right)); [by left|].
    destruct (db !! k) as [c|] eqn:Hk.
    + rewrite (update_item_present db now k n q p c Hk Hsome).
      repeat case_match; simpl; eauto.
    + rewrite update_item_absent by done. eauto.
  - destruct (db !! k) as [c|] eqn:Hk.
    + rewrite (delete_item_present db k c Hk). eauto.
    + rewrite delete_item_absent by done. eauto.
Qed.

End store_shape.

Section store_extras_frame.
Implicit Types (db : table) (k : string) (c : cells).

Lemma perform_other db o k : k <> target o -> perform db o !! k = db !! k.
Proof.
  intros Hne. destruct (perform_shape db o) as [->|[[c ->]| ->]]; [done| |].
  - by apply lookup_insert_ne.
  - by apply lookup_delete_ne.
Qed.

(** X4. A sequence of calls reads and writes only the rows of the skus
    the calls name: the row of any other sku, present or not, is the same
    after the sequence as before. *)
Theorem operations_touch_only_their_sku (ops : list operation) db k :
  (forall o, o ∈ ops -> target o <> k) ->
  fold_left perform ops db !! k = db !! k.
Proof.
  revert db. induction ops as [|o ops IH]; intros db Hk; simpl; [done|].
  rewrite IH.
  - apply perform_other. intros ->. apply (Hk o); [apply list_elem_of_here|done].
  - intros o' Ho'. apply Hk. by apply list_elem_of_further.
Qed.

Lemma operations_touch_only_their_sku_witness :
  (forall o, o ∈ [AddItem "t1" "B2" "Pears" 3 2; DeleteItem "C3"; SubtractQuantity "t2" "B2" 1]
             -> target o <> "A1"%string) /\
  fold_left perform
    [AddItem "t1" "B2" "Pears" 3 2; DeleteItem "C3"; SubtractQuantity "t2" "B2" 1]
    apples !! "A1"%string
  = apples !! "A1"%string.
Proof.
  assert (forall o, o ∈ [AddItem "t1" "B2" "Pears" 3 2; DeleteItem "C3";
                          SubtractQuantity "t2" "B2" 1]
                    -> target o <> "A1"%string) as H.
  { intros o Ho. repeat (apply elem_of_cons in Ho as [->|Ho]; [discriminate|]).
    by apply elem_of_nil in Ho. }
  split; [exact H|].
  exact (operations_touch_only_their_sku _ apples "A1"%string H).
Defined.

(** X5. A call that returns changes the set of stored skus only by its
    own sku: [add_item] and [add_or_update] leave it in the set,
    [delete_item] takes it out, and [subtract_quantity] and [update_item]
    neither add nor remove a row. *)
Theorem successful_operation_skus db o :
  raises db o = None ->
  dom (perform db o) =
    match o with
    | AddItem _ k _ _ _ | AddOrUpdate _ _ k _ _ _ => {[k]} ∪ dom db
    | DeleteItem k => dom db ∖ {[k]}
    | SubtractQuantity _ _ _ | UpdateItem _ _ _ _ _ => dom db
    end.
Proof.
  destruct o as [now k n q p|now now' k n q p|now k q|now k n q p|k]; simpl.
  - destruct (add_item_shape db now k n q p) as [[-> _]|(e & -> & _)]; [|done].
    intros _. simpl. apply dom_insert_L.
  - rewrite add_or_update_cases. destruct (db !! k) as [c|] eqn:Hk.
    + rewrite (update_item_present db now' k (Some n) (Some q) (Some p) c Hk) by done.
      repeat case_match; try done. intros _. simpl. apply dom_insert_L.
    + destruct (add_item_shape db now k n q p) as [[-> _]|(e & -> & _)]; [|done].
      intros _. simpl. apply dom_insert_L.
  - destruct (db !! k) as [c|] eqn:Hk.
    + rewrite (subtract_quantity_present db now k q c Hk).
      repeat case_match; try done. intros _. simpl. by apply dom_insert_lookup_L.
    + by rewrite subtract_quantity_absent.
  - assert ((n, q, p) = (None, None, None) \/ (n, q, p) <> (None, None, None))
      as [[= -> -> ->]|Hsome] by (destruct n, q, p; (by left) || (by right)); [done|].
    destruct (db !! k) as [c|] eqn:Hk.
    + rewrite (update_item_present db now k n q p c Hk Hsome).
      assert (dom (<[k := updated now n q p c]> db) = dom db) as Hdom.
      { by apply dom_insert_lookup_L. }
      repeat case_match; simpl; done.
    + by rewrite update_item_absent.
  - destruct (db !! k) as [c|] eqn:Hk.
    + rewrite (delete_item_present db k c Hk). intros _. simpl. apply dom_delete_L.
    + by rewrite delete_item_absent.
Qed.

Lemma successful_operation_skus_witness :
  raises apples (AddOrUpdate "t1" "t2" "A1" "Apples" 7 2) = None /\
  dom (perform apples (AddOrUpdate "t1" "t2" "A1" "Apples" 7 2))
  = {["A1"%string]} ∪ dom apples.
Proof.
  split; [reflexivity|].
  apply (successful_operation_skus apples (AddOrUpdate "t1" "t2" "A1" "Apples" 7 2)).
  reflexivity.
Defined.

End store_extras_frame.

Section store_extras_errors.
Implicit Types (db : table) (k : string) (c : cells).

(** X6. [update_item] with at least one field supplied checks in this
    order: a sku that is not in the store raises the not-found error
    whatever the values are; otherwise a supplied quantity below zero
    raises "Quantity must be >= 0" whatever the price is; otherwise a
    supplied price below zero raises "Price must be >= 0". In each case
    the table is left as it was. *)
Theorem update_item_errors db now k nm q p :
  (nm, q, p) <> (None, None, None) ->
  (db !! k = None ->
   Store.update_item now k nm q p db = (Raise (ValueError (NotFound k)), db)) /\
  (forall c v, db !! k = Some c -> q = Some v -> v < 0 ->
   Store.update_item now k nm q p db = (Raise (ValueError QuantityNonneg), db)) /\
  (forall c w, db !! k = Some c -> (forall v, q = Some v -> 0 <= v) ->
   p = Some w -> (w < 0)%Q ->
   Store.update_item now k nm q p db = (Raise (ValueError PriceNonneg), db)).
Proof.
  intros Hsome. split; [|split].
  - intros Hk. by apply update_item_absent.
  - intros c v Hk -> Hv. rewrite (update_item_present db now k nm _ p c Hk Hsome).
    by destruct (Z.ltb_spec v 0); [|lia].
  - intros c w Hk Hq -> Hw. rewrite (update_item_present db now k nm q _ c Hk Hsome).
    apply price_neg_true in Hw. rewrite Hw.
    destruct q as [v|]; [|done].
    destruct (Z.ltb_spec v 0); [|done]. specialize (Hq v eq_refl). lia.
Qed.

Lemma update_item_errors_witness :
  (None, Some (-1), Some (-2)%Q) <> (@None string, @None Z, @None Q) /\
  (apples !! "Z9"%string = None /\
   Store.update_item "t1" "Z9" None (Some (-1)) (Some (-2)%Q) apples
   = (Raise (ValueError (NotFound "Z9")), apples)) /\
  (apples !! "A1"%string = Some (Cells "Apples" 5 (3 # 2) "t0") /\ -1 < 0 /\
   Store.update_item "t1" "A1" None (Some (-1)) (Some (-2)%Q) apples
   = (Raise (ValueError QuantityNonneg), apples)).
Proof.
  split; [discriminate|]. split.
  - split; [reflexivity|].
    apply (proj1 (update_item_errors apples "t1" "Z9" None (Some (-1)) (Some (-2)%Q)
                    ltac:(discriminate))).
    reflexivity.
  - split; [reflexivity|]. split; [lia|].
    apply (proj1 (proj2 (update_item_errors apples "t1" "A1" None (Some (-1)) (Some (-2)%Q)
                    ltac:(discriminate)))
             (Cells "Apples" 5 (3 # 2) "t0") (-1)).
    + reflexivity.
    + reflexivity.
    + lia.
Defined.

(** X7. [add_or_update] with a quantity from 0 to 2^63 - 1 (what an
    INTEGER column holds) and a price >= 0 returns whether or not the
    sku is in the store, and leaves the row of that sku with exactly the
    given name, quantity and price; its updated_at is the clock reading
    of [add_item] for a new sku and that of [update_item] for an
    existing one. Other rows are untouched. *)
Theorem add_or_update_upsert db now now' k nm q p :
  0 <= q < 2 ^ 63 -> (0 <= p)%Q ->
  exists db',
    Store.add_or_update now now' k nm q p db = (Ok tt, db') /\
    db' !! k = Some (Cells nm q p (match db !! k with Some _ => now' | None => now end)) /\
    forall k', k' <> k -> db' !! k' = db !! k'.
Proof.
  intros Hq Hp. rewrite add_or_update_cases.
  destruct (db !! k) as [c|] eqn:Hk.
  - rewrite (update_item_supplied db now' k (Some nm) (Some q) (Some p) c Hk);
      [|by intros ? [= <-]|by intros ? [= <-]|done].
    eexists. split; [reflexivity|]. split; [apply lookup_insert_eq|].
    intros k' Hne. by apply lookup_insert_ne.
  - rewrite (add_item_fresh db now k nm q p Hk Hq Hp).
    eexists. split; [reflexivity|]. split; [apply lookup_insert_eq|].
    intros k' Hne. by apply lookup_insert_ne.
Qed.

Lemma add_or_update_upsert_witness :
  0 <= 7 < 2 ^ 63 /\ (0 <= 2)%Q /\
  exists db',
    Store.add_or_update "t1" "t2" "A1" "Green apples" 7 2 apples = (Ok tt, db') /\
    db' !! "A1"%string
    = Some (Cells "Green apples" 7 2
              (match apples !! "A1"%string with Some _ => "t2" | None => "t1" end)) /\
    forall k', k' <> "A1"%string -> db' !! k' = apples !! k'.
Proof.
  split; [lia|]. split; [unfold Qle; simpl; lia|].
  apply (add_or_update_upsert apples "t1" "t2" "A1" "Green apples" 7 2).
  - lia.
  - unfold Qle; simpl; lia.
Defined.

(** X8. [add_or_update] never raises the already-exists error and never
    the not-found error, and a call that raises stores nothing. A
    [ValueError] it raises is the one of [update_item] for a quantity or
    a price below zero, on a sku that is in the store; an
    [OverflowError] means that the quantity does not fit an INTEGER
    column; an integrity error is never the one of the primary key. *)
Theorem add_or_update_errors db now now' k nm q p e :
  fst (Store.add_or_update now now' k nm q p db) = Raise e ->
  snd (Store.add_or_update now now' k nm q p db) = db /\
  match e with
  | ValueError m =>
      is_Some (db !! k) /\
      (m = QuantityNonneg /\ q < 0 \/ m = PriceNonneg /\ 0 <= q /\ (p < 0)%Q)
  | OverflowError => q < - 2 ^ 63 \/ 2 ^ 63 <= q
  | IntegrityError v => v <> UniqueSku
  | AgentParseError _ => False
  end.
Proof.
  rewrite add_or_update_cases.
  destruct (db !! k) as [c|] eqn:Hk.
  - rewrite (update_item_present db now' k (Some nm) (Some q) (Some p) c Hk) by done.
    destruct (Z.ltb_spec q 0) as [Hq|Hq]; simpl.
    { intros [= <-]. split; [done|]. split; [by eexists|]. by left. }
    destruct (price_neg p) eqn:Hp; simpl.
    { apply price_neg_true in Hp. intros [= <-]. split; [done|].
      split; [by eexists|]. by right. }
    destruct (fits_integer q) eqn:Hfit; simpl; [done|].
    apply fits_integer_false in Hfit. intros [= <-]. by split.
  - destruct (add_item_shape db now k nm q p) as [[-> _]|(e' & -> & He)]; [done|].
    rewrite Hk in He. simpl. intros [= <-]. split; [done|].
    destruct He as [[-> Hfit]|(_ & v & Hv & ->)]; [|done].
    by apply fits_integer_false.
Qed.

Lemma add_or_update_errors_witness :
  fst (Store.add_or_update "t1" "t2" "A1" "Apples" (-2) 1 apples)
  = Raise (ValueError QuantityNonneg) /\
  snd (Store.add_or_update "t1" "t2" "A1" "Apples" (-2) 1 apples) = apples /\
  is_Some (apples !! "A1"%string) /\
  (QuantityNonneg = QuantityNonneg /\ -2 < 0
   \/ QuantityNonneg = PriceNonneg /\ 0 <= -2 /\ (1 < 0)%Q).
Proof.
  split; [reflexivity|].
  apply (add_or_update_errors apples "t1" "t2" "A1" "Apples" (-2) 1
           (ValueError QuantityNonneg)).
  reflexivity.
Defined.

End store_extras_errors.

Section store_extras_compose.
Implicit Types (db : table) (k : string) (c : cells).

(** X9. Two [subtract_quantity] calls in a row on a stored sku, of [a]
    and then of [b], both within the stock left and leaving at most
    2^63 - 1 (what an INTEGER column holds), return the quantities
    [c - a] and [c - a - b] and leave the table one call of [a + b] at the
    second clock reading leaves. *)
Theorem subtract_quantity_twice db now now' k a b c :
  db !! k = Some c ->
  a <= c_quantity c -> c_quantity c - a < 2 ^ 63 ->
  b <= c_quantity c - a -> c_quantity c - a - b < 2 ^ 63 ->
  exists db1 db2,
    Store.subtract_quantity now k a db = (Ok (c_quantity c - a), db1) /\
    Store.subtract_quantity now' k b db1 = (Ok (c_quantity c - a - b), db2) /\
    Store.subtract_quantity now' k (a + b) db = (Ok (c_quantity c - (a + b)), db2).
Proof.
  intros Hk Ha Hfa Hb Hfb. do 2 eexists.
  split; [by apply subtract_quantity_enough|]. split.
  - rewrite (subtract_quantity_enough _ now' k b
               (Cells (c_name c) (c_quantity c - a) (c_price c) now));
      [reflexivity|apply lookup_insert_eq|simpl; lia|simpl; lia].
  - rewrite (subtract_quantity_enough db now' k (a + b) c Hk) by lia.
    simpl. rewrite insert_insert_eq. do 3 f_equal. lia.
Qed.

Lemma subtract_quantity_twice_witness :
  apples !! "A1"%string = Some (Cells "Apples" 5 (3 # 2) "t0") /\
  2 <= 5 /\ 5 - 2 < 2 ^ 63 /\ 3 <= 5 - 2 /\ 5 - 2 - 3 < 2 ^ 63 /\
  exists db1 db2,
    Store.subtract_quantity "t1" "A1" 2 apples = (Ok (5 - 2), db1) /\
    Store.subtract_quantity "t2" "A1" 3 db1 = (Ok (5 - 2 - 3), db2) /\
    Store.subtract_quantity "t2" "A1" (2 + 3) apples = (Ok (5 - (2 + 3)), db2).
Proof.
  split; [reflexivity|]. split; [lia|]. split; [lia|]. split; [lia|]. split; [lia|].
  apply (subtract_quantity_twice apples "t1" "t2" "A1" 2 3
           (Cells "Apples" 5 (3 # 2) "t0")).
  - reflexivity.
  - simpl; lia.
  - simpl; lia.
  - simpl; lia.
  - simpl; lia.
Defined.

(** X10. [add_item] of a new sku, with a quantity from 0 to 2^63 - 1 and
    a price >= 0, followed by [delete_item] of it gives back the table
    the two calls started from. *)
Theorem add_item_then_delete_item db now k nm q p :
  db !! k = None -> 0 <= q < 2 ^ 63 -> (0 <= p)%Q ->
  exists db',
    Store.add_item now k nm q p db = (Ok tt, db') /\
    Store.delete_item k db' = (Ok tt, db).
Proof.
  intros Hk Hq Hp. eexists. split; [by apply add_item_fresh|].
  rewrite (delete_item_present _ k (Cells nm q p now)) by apply lookup_insert_eq.
  by rewrite delete_insert_eq, delete_id.
Qed.

Lemma add_item_then_delete_item_witness :
  apples !! "B2"%string = None /\ 0 <= 3 < 2 ^ 63 /\ (0 <= 2)%Q /\
  exists db',
    Store.add_item "t1" "B2" "Pears" 3 2 apples = (Ok tt, db') /\
    Store.delete_item "B2" db' = (Ok tt, apples).
Proof.
  split; [reflexivity|]. split; [lia|]. split; [unfold Qle; simpl; lia|].
  apply (add_item_then_delete_item apples "t1" "B2" "Pears" 3 2).
  - reflexivity.
  - lia.
  - unfold Qle; simpl; lia.
Defined.

(** X11. [add_item] of a new sku with a quantity or a price below zero
    raises and stores nothing: the table is as before and [get_item] of
    that sku still returns [None]. The exception is the [OverflowError]
    of the binding when the quantity is below - 2^63 or above 2^63 - 1,
    and otherwise an integrity error of the table that is not the one
    of the primary key. *)
Theorem add_item_rejects_negative db now k nm q p :
  db !! k = None -> q < 0 \/ (p < 0)%Q ->
  exists e,
    Store.add_item now k nm q p db = (Raise e, db) /\
    (if fits_integer q then exists v, v <> UniqueSku /\ e = IntegrityError v
     else e = OverflowError) /\
    Store.get_item k db = (Ok None, db).
Proof.
  intros Hk Hbad.
  destruct (add_item_shape db now k nm q p) as [(_ & _ & Hq & Hp)|(e & Heq & He)].
  { destruct Hbad as [?|Hlt]; [lia|]. by apply Qlt_not_le in Hlt. }
  exists e. split; [done|]. split; [|by rewrite get_item_lookup, Hk].
  rewrite Hk in He. destruct He as [[-> ->]|(_ & v & Hv & ->)]; [done|].
  rewrite (add_item_absent db now k nm q p Hk) in Heq.
  destruct (fits_integer q); simpl in Heq; [by eauto|done].
Qed.

Lemma add_item_rejects_negative_witness :
  apples !! "B2"%string = None /\ (-1 < 0 \/ (2 < 0)%Q) /\
  exists e,
    Store.add_item "t1" "B2" "Pears" (-1) 2 apples = (Raise e, apples) /\
    (if fits_integer (-1) then exists v, v <> UniqueSku /\ e = IntegrityError v
     else e = OverflowError) /\
    Store.get_item "B2" apples = (Ok None, apples).
Proof.
  split; [reflexivity|]. split; [left; lia|].
  apply (add_item_rejects_negative apples "t1" "B2" "Pears" (-1) 2).
  - reflexivity.
  - left. lia.
Defined.

End store_extras_compose.

(** * Further properties of the parser *)

Section matcher_texts.
Local Open Scope string_scope.

Lemma string_length_app (a b : string) :
  String.length (a ++ b) = (String.length a + String.length b)%nat.
Proof. induction a as [|c a IH]; simpl; [done|]. by rewrite IH. Qed.

Lemma consumed_app pre r : consumed (pre ++ r) r = pre.
Proof.
  unfold consumed. rewrite string_length_app.
  replace (String.length pre + String.length r - String.length r)%nat
    with (String.length pre) by lia.
  induction pre as [|c pre IH]; simpl; [by destruct r|]. by rewrite IH.
Qed.

Lemma star_reads p prev s o :
  In o (star p prev s) ->
  exists pre, s = pre ++ rest o /\ all_chars p pre = true.
Proof.
  revert prev. induction s as [|c s IH]; intros prev Ho; simpl in Ho.
  - destruct Ho as [<-|[]]. by exists "".
  - destruct (p c) eqn:Hc.
    + apply in_app_or in Ho as [Ho|[<-|[]]].
      * apply IH in Ho as (pre & -> & Hpre). exists (String c pre).
        split; [done|]. simpl. by rewrite Hc.
      * by exists "".
    + destruct Ho as [<-|[]]. by exists "".
Qed.

Lemma plus_reads p prev s o :
  In o (matches (Plus p) prev s) ->
  exists pre, s = pre ++ rest o /\ all_chars p pre = true /\ pre <> "" /\ groups o = [].
Proof.
  intros Ho. pose proof (plus_outcome p prev s o Ho) as [Hg _].
  simpl in Ho. destruct s as [|c s]; [done|].
  destruct (p c) eqn:Hc; [|done].
  apply star_reads in Ho as (pre & -> & Hpre). exists (String c pre).
  repeat split; try done. simpl. by rewrite Hc.
Qed.

(** The group of [(class+)] is a non-empty text of the class. *)
Lemma group_plus_reads p prev s o :
  In o (matches (Group (Plus p)) prev s) ->
  exists g, groups o = [g] /\ all_chars p g = true /\ g <> "".
Proof.
  intros Ho. apply group_outcome in Ho as (o' & Ho' & -> & _).
  apply plus_reads in Ho' as (pre & -> & Hpre & Hne & ->).
  exists pre. by rewrite consumed_app.
Qed.

Lemma lit_reads l prev s o :
  In o (matches (Lit l) prev s) -> s = l ++ rest o /\ groups o = [].
Proof.
  simpl. destruct (strip_prefix l s) as [s'|] eqn:Hs; [|done].
  intros [<-|[]]. simpl. split; [|done].
  revert s Hs. induction l as [|a l IH]; intros s Hs; simpl in *.
  - by simplify_eq.
  - destruct s as [|b s]; [done|].
    destruct (Ascii.eqb_spec a b) as [->|]; [|done].
    change (String b s = String b (l ++ rest (Outcome (last_char prev (String b l)) s' []))).
    f_equal. by apply IH.
Qed.

Lemma group1_search r t g :
  group1 (search r t) = Some g ->
  exists prev s o, In o (matches r prev s) /\ List.head (groups o) = Some g.
Proof.
  unfold group1, search. destruct (search_from r None t) as [o|] eqn:Hs; [|done].
  apply search_from_matches in Hs as (prev & s & Ho). eauto.
Qed.

Lemma _find_after_token t key g :
  _find_after t key = Some g -> all_chars is_token_char g = true /\ g <> "".
Proof.
  intros (prev & s & o & Ho & Hg)%group1_search.
  apply seq_outcome in Ho as (o1 & o' & Ho1 & Ho' & Hgo & _).
  apply seq_outcome in Ho' as (o2 & o3 & Ho2 & Ho3 & Hgo' & _).
  apply lit_outcome in Ho1. apply plus_outcome in Ho2 as [Hg2 _].
  apply group_plus_reads in Ho3 as (g' & Hg3 & Hall & Hne).
  rewrite Hgo, Hgo', Ho1, Hg2, Hg3 in Hg. simpl in Hg. by simplify_eq.
Qed.

Lemma star_groups p prev s o : In o (star p prev s) -> groups o = [].
Proof. intros Ho. by apply star_outcome in Ho as [? _]. Qed.

Lemma int_from_nonneg acc s :
  0 <= acc -> all_chars is_digit s = true -> 0 <= int_from acc s.
Proof.
  revert acc. induction s as [|c s IH]; intros acc Hacc Hs; simpl in *; [done|].
  apply andb_prop in Hs as [Hc Hs]. apply IH; [|done].
  unfold digit_value. unfold is_digit, between in Hc.
  apply andb_prop in Hc as [Hlo _]. apply Nat.leb_le in Hlo. lia.
Qed.

Lemma int_value_nonneg s : all_chars is_digit s = true -> 0 <= int_value s.
Proof. by apply int_from_nonneg. Qed.

Lemma int_nonneg s n : all_chars is_digit s = true -> int s = Ok n -> 0 <= n.
Proof.
  intros Hs. unfold int. destruct (_ <? _)%nat; [done|].
  intros [= <-]. by apply int_value_nonneg.
Qed.

Lemma int_of_group_nonneg g n :
  (forall s, g = Some s -> all_chars is_digit s = true) ->
  int_of_group g = Ok (Some n) -> 0 <= n.
Proof.
  intros Hg. unfold int_of_group. destruct g as [s|]; [|done].
  destruct (int s) as [m|] eqn:Hm; simpl; [|done].
  intros [= <-]. eapply int_nonneg; [|done]. by apply Hg.
Qed.

(** The groups the two searches for an integer capture are digits. *)
Lemma _find_int_digits t g :
  group1 (search (Seq Boundary (Seq (Group (Plus is_digit)) Boundary)) t) = Some g ->
  all_chars is_digit g = true.
Proof.
  intros Hg.
  apply group1_search in Hg as (prev & s & o & Ho & Hg).
  apply seq_outcome in Ho as (o1 & o' & Ho1 & Ho' & Hgo & _).
  apply seq_outcome in Ho' as (o2 & o3 & Ho2 & Ho3 & Hgo' & _).
  apply group_plus_reads in Ho2 as (g' & Hg2 & Hall & Hne).
  assert (groups o1 = []) as Hg1.
  { simpl in Ho1. destruct (xorb _ _); [|done]. by destruct Ho1 as [<-|[]]. }
  rewrite Hgo, Hgo', Hg1, Hg2 in Hg. simpl in Hg. by simplify_eq.
Qed.

Lemma _find_int_after_digits t key g :
  group1 (search (Seq (Lit key) (Seq (Star is_not_digit) (Group (Plus is_digit)))) t)
  = Some g ->
  all_chars is_digit g = true.
Proof.
  intros Hg.
  apply group1_search in Hg as (prev & s & o & Ho & Hg).
  apply seq_outcome in Ho as (o1 & o' & Ho1 & Ho' & Hgo & _).
  apply seq_outcome in Ho' as (o2 & o3 & Ho2 & Ho3 & Hgo' & _).
  apply lit_outcome in Ho1. apply star_groups in Ho2.
  apply group_plus_reads in Ho3 as (g' & Hg3 & Hall & Hne).
  rewrite Hgo, Hgo', Ho1, Ho2, Hg3 in Hg. simpl in Hg. by simplify_eq.
Qed.

Lemma _find_int_nonneg t n : _find_int t = Ok (Some n) -> 0 <= n.
Proof.
  unfold _find_int. apply int_of_group_nonneg. apply _find_int_digits.
Qed.

Lemma _find_int_after_nonneg t key n : _find_int_after t key = Ok (Some n) -> 0 <= n.
Proof.
  unfold _find_int_after. apply int_of_group_nonneg. apply _find_int_after_digits.
Qed.

Lemma update_quantity_nonneg t n : update_quantity t = Ok (Some n) -> 0 <= n.
Proof.
  unfold update_quantity.
  destruct (_find_int_after t "qty") as [q|] eqn:Hq; simpl; [|done].
  destruct (truthy q).
  - intros [= ->]. by eapply _find_int_after_nonneg.
  - apply _find_int_after_nonneg.
Qed.

End matcher_texts.

Section matcher_numbers.
Local Open Scope string_scope.

Lemma string_app_assoc (a b c : string) : (a ++ b) ++ c = a ++ (b ++ c).
Proof.
  induction a as [|x a IH]; [done|].
  change (String x ((a ++ b) ++ c) = String x (a ++ (b ++ c))). by rewrite IH.
Qed.

Lemma string_app_empty_r (a : string) : a ++ "" = a.
Proof.
  induction a as [|x a IH]; [done|].
  change (String x (a ++ "") = String x a). by rewrite IH.
Qed.

Lemma all_chars_app p (a b : string) :
  all_chars p (a ++ b) = all_chars p a && all_chars p b.
Proof.
  induction a as [|x a IH]; [done|].
  change (p x && all_chars p (a ++ b) = p x && all_chars p a && all_chars p b).
  rewrite IH. by destruct (p x).
Qed.

Lemma opt_outcome r prev s o :
  In o (matches (Opt r) prev s) -> In o (matches r prev s) \/ o = Outcome prev s [].
Proof.
  cbn [matches]. intros Ho. apply in_app_or in Ho as [Ho|[<-|[]]]; eauto.
Qed.

Lemma split_point_digits d r :
  all_chars is_digit d = true ->
  split_point (d ++ r) = (d ++ fst (split_point r), snd (split_point r)).
Proof.
  induction d as [|c d IH]; intros Hd.
  - change (split_point r = (fst (split_point r), snd (split_point r))).
    by destruct (split_point r).
  - simpl in Hd. apply andb_prop in Hd as [Hc Hd].
    change (split_point (String c (d ++ r))
            = (String c (d ++ fst (split_point r)), snd (split_point r))).
    simpl. destruct (Nat.eqb_spec (code c) 46) as [Heq|_].
    + unfold is_digit, between in Hc. rewrite Heq in Hc. done.
    + by rewrite (IH Hd).
Qed.

Lemma float_nonneg_parts s :
  all_chars is_digit (fst (split_point s)) = true ->
  all_chars is_digit (snd (split_point s)) = true ->
  (0 <= float s)%Q.
Proof.
  unfold float. destruct (split_point s) as [i f]. simpl. intros Hi Hf.
  rewrite Qred_correct. unfold Qle. simpl. rewrite Z.mul_1_r.
  apply int_value_nonneg. rewrite all_chars_app. by rewrite Hi, Hf.
Qed.

(** The numeral of [[0-9]+(?:\.[0-9]+)?] is read as a value >= 0. *)
Lemma float_numeral_nonneg prev s o :
  In o (matches (Group (Seq (Plus is_digit) (Opt (Seq (Lit ".") (Plus is_digit))))) prev s) ->
  exists g, groups o = [g] /\ (0 <= float g)%Q.
Proof.
  intros Ho. apply group_outcome in Ho as (o' & Ho' & -> & _).
  apply seq_outcome in Ho' as (o1 & o2 & Ho1 & Ho2 & Hg & Hr).
  apply plus_reads in Ho1 as (d1 & -> & Hd1 & _ & Hg1).
  rewrite Hg, Hg1, Hr. simpl.
  apply opt_outcome in Ho2 as [Ho2| ->].
  - apply seq_outcome in Ho2 as (o3 & o4 & Ho3 & Ho4 & Hg' & Hr').
    apply lit_reads in Ho3 as [Hs3 Hg3].
    apply plus_reads in Ho4 as (d2 & Hs4 & Hd2 & _ & Hg4).
    rewrite Hg', Hg3, Hg4, Hr', Hs3, Hs4. simpl.
    rewrite <- !string_app_assoc, consumed_app, string_app_assoc.
    eexists. split; [done|].
    change ("." ++ d2) with (String "." d2).
    apply float_nonneg_parts; rewrite split_point_digits by done; simpl.
    + by rewrite string_app_empty_r.
    + done.
  - simpl. rewrite consumed_app. eexists. split; [done|].
    apply float_nonneg_parts.
    + rewrite <- (string_app_empty_r d1), split_point_digits by done. simpl.
      by rewrite string_app_empty_r.
    + by rewrite <- (string_app_empty_r d1), split_point_digits.
Qed.

Lemma _find_float_after_nonneg t key x :
  _find_float_after t key = Some x -> (0 <= x)%Q.
Proof.
  unfold _find_float_after. destruct (group1 _) as [g|] eqn:Hg; [|done].
  intros [= <-].
  apply group1_search in Hg as (prev & s & o & Ho & Hg).
  apply seq_outcome in Ho as (o1 & o' & Ho1 & Ho' & Hgo & _).
  apply seq_outcome in Ho' as (o2 & o3 & Ho2 & Ho3 & Hgo' & _).
  apply lit_outcome in Ho1. apply star_groups in Ho2.
  apply float_numeral_nonneg in Ho3 as (g' & Hg3 & Hnn).
  rewrite Hgo, Hgo', Ho1, Ho2, Hg3 in Hg. simpl in Hg. by simplify_eq.
Qed.

End matcher_numbers.

Section parser_shapes.
Local Open Scope string_scope.

Lemma upper_token_char c : is_token_char c = true -> is_sku_char (upper_char c) = true.
Proof.
  destruct c as [[] [] [] [] [] [] [] []]; vm_compute; congruence.
Qed.

Lemma upper_token g :
  all_chars is_token_char g = true -> all_chars is_sku_char (upper g) = true.
Proof.
  unfold upper. induction g as [|c g IH]; simpl; [done|].
  intros [Hc Hg]%andb_prop. by rewrite upper_token_char, IH.
Qed.

Lemma map_chars_nonempty f s : s <> "" -> map_chars f s <> "".
Proof. by destruct s. Qed.

Lemma title_nonempty s : s <> "" -> title s <> "".
Proof. by destruct s. Qed.

Lemma find_sku_token t g :
  find_sku t = Some g -> all_chars is_token_char g = true /\ g <> "".
Proof.
  unfold find_sku, or_else.
  destruct (truthy (_find_after t "sku")); eauto using _find_after_token.
Qed.

Lemma or_value_nonempty (x : option string) d : d <> "" -> or_value x d <> "".
Proof.
  intros Hd. unfold or_value. destruct x as [[|c v]|]; simpl; done.
Qed.

(** What a returned action is made of, branch by branch. *)
Lemma parse_ok text a :
  _rule_based_parse text = Ok a ->
  exists g, find_sku (normalise text) = Some g /\
    match classify (normalise text) with
    | Some IAdd =>
        exists n, _find_int (normalise text) = Ok n /\
        a = Add (upper g)
              (title (or_value
                 (_find_name (normalise text)
                    ["add"; "with"; "sku"; "price"; "update"; "delete"; "subtract"])
                 (or_value (Some g) "item")))
              (or_value n 1)
              (or_value (_find_float_after (normalise text) "price") 0%Q)
    | Some ISubtract =>
        exists n, _find_int (normalise text) = Ok n /\
        a = Subtract (upper g) (or_value n 1)
    | Some IUpdate =>
        exists q, update_quantity (normalise text) = Ok q /\
        a = Update (upper g) (update_name (normalise text)) q
              (update_price (normalise text)) /\
        (update_name (normalise text), q, update_price (normalise text))
        <> (None, None, None)
    | Some IDelete => a = Delete (upper g)
    | None => False
    end.
Proof.
  unfold _rule_based_parse, classify.
  destruct (add_keyword _); [|destruct (subtract_keyword _);
    [|destruct (update_keyword _); [|destruct (delete_keyword _)]]].
  - destruct (_find_int _) as [n|]; cbn [result_bind]; [|done].
    destruct (find_sku _) as [g|] eqn:Hg; [|done].
    rewrite (find_sku_truthy _ _ Hg). simpl. intros [= <-]. eauto.
  - destruct (_find_int _) as [n|]; cbn [result_bind]; [|done].
    destruct (find_sku _) as [g|] eqn:Hg; [|done].
    rewrite (find_sku_truthy _ _ Hg). simpl. intros [= <-]. eauto.
  - destruct (find_sku _) as [g|] eqn:Hg; [|done].
    rewrite (find_sku_truthy _ _ Hg). simpl.
    destruct (update_quantity _) as [q|]; cbn [result_bind]; [|done].
    destruct (update_name _), q, (update_price _); simpl;
      intros [= <-]; eauto 6.
  - destruct (find_sku _) as [g|] eqn:Hg; [|done].
    rewrite (find_sku_truthy _ _ Hg). simpl. intros [= <-]. eauto.
  - done.
Qed.

Lemma or_value_int_positive (n : option Z) :
  (forall v, n = Some v -> 0 <= v) -> 1 <= or_value n 1.
Proof.
  intros Hn. unfold or_value. destruct n as [v|]; [|done].
  specialize (Hn v eq_refl). unfold truthy, truthy_int.
  destruct (Z.eqb_spec v 0); simpl; lia.
Qed.

Lemma or_value_price_nonneg (x : option Q) :
  (forall v, x = Some v -> (0 <= v)%Q) -> (0 <= or_value x 0)%Q.
Proof.
  intros Hx. unfold or_value. destruct x as [v|]; [|done].
  specialize (Hx v eq_refl). by destruct (truthy v).
Qed.

Lemma parse_ok_numbers text a :
  _rule_based_parse text = Ok a ->
  match a with
  | Add _ _ q p => 1 <= q /\ (0 <= p)%Q
  | Subtract _ q => 1 <= q
  | Update _ _ q p => (forall v, q = Some v -> 0 <= v) /\ (forall w, p = Some w -> (0 <= w)%Q)
  | Delete _ => True
  end.
Proof.
  intros (g & Hg & Ha)%parse_ok.
  destruct (classify _) as [[]|]; try done.
  - destruct Ha as (n & Hn & ->). split.
    + apply or_value_int_positive. intros v ->. by eapply _find_int_nonneg.
    + apply or_value_price_nonneg. intros v. apply _find_float_after_nonneg.
  - destruct Ha as (n & Hn & ->).
    apply or_value_int_positive. intros v ->. by eapply _find_int_nonneg.
  - destruct Ha as (q & Hq & -> & _). split.
    + intros v ->. by eapply update_quantity_nonneg.
    + unfold update_price. eauto using _find_float_after_nonneg.
  - by subst a.
Qed.

End parser_shapes.

Section parser_extras.
Local Open Scope string_scope.

(** X12. Every action the rule-based parser returns carries the token
    found after "sku" (or, failing that, after "code") in upper case: its
    sku is not empty and is made of the characters A-Z, 0-9, "-" and "_"
    only. *)
Theorem parsed_sku_canonical text a :
  _rule_based_parse text = Ok a ->
  exists g,
    find_sku (normalise text) = Some g /\
    sku_of a = upper g /\
    sku_of a <> "" /\
    all_chars is_sku_char (sku_of a) = true.
Proof.
  intros (g & Hg & Ha)%parse_ok. exists g. split; [done|].
  apply find_sku_token in Hg as [Htok Hne].
  assert (sku_of a = upper g) as ->.
  { destruct (classify _) as [[]|]; try done.
    - by destruct Ha as (n & _ & ->).
    - by destruct Ha as (n & _ & ->).
    - by destruct Ha as (q & _ & -> & _).
    - by subst a. }
  split; [done|]. split; [by apply map_chars_nonempty | by apply upper_token].
Qed.

Lemma parsed_sku_canonical_witness :
  _rule_based_parse "Please change code x-9_b name Pear" = Ok (Update "X-9_B" (Some "Pear") None None) /\
  exists g,
    find_sku (normalise "Please change code x-9_b name Pear") = Some g /\
    sku_of (Update "X-9_B" (Some "Pear") None None) = upper g /\
    sku_of (Update "X-9_B" (Some "Pear") None None) <> "" /\
    all_chars is_sku_char (sku_of (Update "X-9_B" (Some "Pear") None None)) = true.
Proof.
  split; [vm_compute; reflexivity|].
  apply (parsed_sku_canonical "Please change code x-9_b name Pear").
  vm_compute; reflexivity.
Defined.

(** X13. The numbers in a returned action are never negative: an add or
    a subtract has a quantity of at least 1, an add has a price >= 0, and
    an update has a quantity >= 0 and a price >= 0 where it has them. *)
Theorem parsed_numbers_nonnegative text a :
  _rule_based_parse text = Ok a ->
  match a with
  | Add _ _ q p => 1 <= q /\ (0 <= p)%Q
  | Subtract _ q => 1 <= q
  | Update _ _ q p => (forall v, q = Some v -> 0 <= v) /\ (forall w, p = Some w -> (0 <= w)%Q)
  | Delete _ => True
  end.
Proof.
  intros (g & Hg & Ha)%parse_ok.
  destruct (classify _) as [[]|]; try done.
  - destruct Ha as (n & Hn & ->). split.
    + apply or_value_int_positive. intros v ->. by eapply _find_int_nonneg.
    + apply or_value_price_nonneg. intros v. apply _find_float_after_nonneg.
  - destruct Ha as (n & Hn & ->).
    apply or_value_int_positive. intros v ->. by eapply _find_int_nonneg.
  - destruct Ha as (q & Hq & -> & _). split.
    + intros v ->. by eapply update_quantity_nonneg.
    + unfold update_price. eauto using _find_float_after_nonneg.
  - by subst a.
Qed.

Lemma parsed_numbers_nonnegative_witness :
  _rule_based_parse "minus 0 apples sku a1" = Ok (Subtract "A1" 1) /\ 1 <= 1.
Proof.
  split; [vm_compute; reflexivity|].
  apply (parsed_numbers_nonnegative "minus 0 apples sku a1" (Subtract "A1" 1)).
  vm_compute; reflexivity.
Defined.

(** X14. A returned add action has a name that is not empty; a returned
    update action has at least one of name, quantity and price, and its
    name, when it has one, is not empty. *)
Theorem parsed_action_complete text a :
  _rule_based_parse text = Ok a ->
  match a with
  | Add _ nm _ _ => nm <> ""
  | Update _ nm q p =>
      (nm, q, p) <> (None, None, None) /\ (forall n, nm = Some n -> n <> "")
  | _ => True
  end.
Proof.
  intros (g & Hg & Ha)%parse_ok.
  destruct (classify _) as [[]|]; try done.
  - destruct Ha as (n & _ & ->). apply title_nonempty. apply or_value_nonempty.
    by apply or_value_nonempty.
  - by destruct Ha as (n & _ & ->).
  - destruct Ha as (q & _ & -> & Hsome). split; [done|].
    unfold update_name. intros n.
    destruct (_find_after _ "name") as [w|] eqn:Hw; cbv [truthy truthy_optional]; [|done].
    apply _find_after_token in Hw as [_ Hw].
    destruct (truthy_str w); [|done]. simpl. intros [= <-]. by apply title_nonempty.
  - by subst a.
Qed.

Lemma parsed_action_complete_witness :
  _rule_based_parse "add sku 77" = Ok (Add "77" "77" 77 0) /\ "77" <> "".
Proof.
  split; [vm_compute; reflexivity|].
  apply (parsed_action_complete "add sku 77" (Add "77" "77" 77 0)).
  vm_compute; reflexivity.
Defined.

End parser_extras.

Section normalisation.
Local Open Scope string_scope.

Lemma lower_char_idem c : lower_char (lower_char c) = lower_char c.
Proof. destruct c as [[] [] [] [] [] [] [] []]; vm_compute; reflexivity. Qed.

Lemma is_space_lower_char c : is_space (lower_char c) = is_space c.
Proof. destruct c as [[] [] [] [] [] [] [] []]; vm_compute; reflexivity. Qed.

Lemma lower_idem s : lower (lower s) = lower s.
Proof.
  unfold lower. induction s as [|c s IH]; simpl; [done|].
  by rewrite lower_char_idem, IH.
Qed.

Lemma lstrip_lower s : lstrip (lower s) = lower (lstrip s).
Proof.
  unfold lower. induction s as [|c s IH]; simpl; [done|].
  rewrite is_space_lower_char. by destruct (is_space c).
Qed.

Lemma rstrip_lower s : rstrip (lower s) = lower (rstrip s).
Proof.
  unfold lower. induction s as [|c s IH]; simpl; [done|].
  rewrite IH, is_space_lower_char.
  destruct (rstrip s); simpl; [by destruct (is_space c)|done].
Qed.

Lemma rstrip_idem s : rstrip (rstrip s) = rstrip s.
Proof.
  induction s as [|c s IH]; simpl; [done|].
  destruct (rstrip s) as [|d r] eqn:Hr.
  - destruct (is_space c) eqn:Hc; simpl; [done|]. by rewrite Hc.
  - simpl in *. by rewrite IH.
Qed.

Lemma lstrip_no_leading_space s : no_leading_space (lstrip s).
Proof.
  induction s as [|c s IH]; simpl; [done|].
  destruct (is_space c) eqn:Hc; [done|]. simpl. done.
Qed.

Lemma lstrip_id s : no_leading_space s -> lstrip s = s.
Proof. destruct s as [|c s]; simpl; [done|]. by intros ->. Qed.

Lemma rstrip_no_leading_space s : no_leading_space s -> no_leading_space (rstrip s).
Proof.
  destruct s as [|c s]; simpl; [done|]. intros Hc.
  destruct (rstrip s); simpl; [by rewrite Hc|done].
Qed.

Lemma strip_idem s : strip (strip s) = strip s.
Proof.
  unfold strip.
  rewrite (lstrip_id (rstrip (lstrip s)))
    by apply rstrip_no_leading_space, lstrip_no_leading_space.
  apply rstrip_idem.
Qed.

Lemma strip_lower s : strip (lower s) = lower (strip s).
Proof. unfold strip. by rewrite lstrip_lower, rstrip_lower. Qed.

Lemma normalise_idem text : normalise (normalise text) = normalise text.
Proof.
  unfold normalise. by rewrite <- strip_lower, strip_idem, lower_idem.
Qed.

Lemma normalise_lower text : normalise (lower text) = normalise text.
Proof. unfold normalise. by rewrite lower_idem. Qed.

Lemma normalise_strip text : normalise (strip text) = normalise text.
Proof. unfold normalise. by rewrite <- strip_lower, strip_idem. Qed.

(** X15. The rule-based parse of a text depends on the text only through
    its lower-cased, stripped form: lower-casing the text, stripping its
    surrounding white space, or both, gives the same action or the same
    error. *)
Theorem parse_ignores_case_and_margin text :
  _rule_based_parse (lower text) = _rule_based_parse text /\
  _rule_based_parse (strip text) = _rule_based_parse text /\
  _rule_based_parse (normalise text) = _rule_based_parse text.
Proof.
  unfold _rule_based_parse.
  by rewrite normalise_lower, normalise_strip, normalise_idem.
Qed.

End normalisation.

Section find_name.
Local Open Scope string_scope.

Lemma findall_plus_words p skip prev s w :
  In w (findall_from (Plus p) skip prev s) -> all_chars p w = true /\ w <> "".
Proof.
  revert skip prev. induction s as [|c s IH]; intros skip prev.
  - destruct skip; simpl; done.
  - destruct skip as [|skip]; [|simpl; apply IH].
    cbn [findall_from].
    destruct (matches (Plus p) prev (String c s)) as [|o l] eqn:Hm; [apply IH|].
    intros [<-|Hw]; [|by eapply IH].
    assert (In o (matches (Plus p) prev (String c s))) as Ho by (rewrite Hm; by left).
    apply plus_reads in Ho as (pre & Hs & Hpre & Hne & _).
    rewrite Hs, consumed_app. done.
Qed.

Lemma max_len_in w l : In (max_len w l) (w :: l).
Proof.
  revert w. induction l as [|x l IH]; intros w; simpl; [by left|].
  destruct (String.length w <? String.length x)%nat.
  - right. apply IH.
  - destruct (IH w) as [Heq|Hin]; [by left|right; by right].
Qed.

Lemma max_len_longest w l x :
  In x (w :: l) -> (String.length x <= String.length (max_len w l))%nat.
Proof.
  revert w x. induction l as [|y l IH]; intros w x Hx.
  - destruct Hx as [->|[]]. done.
  - cbn [max_len].
    destruct (Nat.ltb_spec (String.length w) (String.length y)) as [Hlt|Hge].
    + destruct Hx as [->|Hx]; [|by apply IH].
      apply Nat.le_trans with (String.length y); [lia|].
      apply IH. simpl. by left.
    + destruct Hx as [->|[->|Hx]].
      * apply IH. simpl. by left.
      * apply Nat.le_trans with (String.length w); [exact Hge|].
        apply IH. simpl. by left.
      * apply IH. simpl. by right.
Qed.

(** X16. The word [_find_name] returns is one of the runs of letters a-z
    of the text: it is not empty, is not one of the excluded words, and
    no other run that is not excluded is longer. It returns [None]
    exactly when every run of letters is excluded. *)
Theorem _find_name_longest_candidate t exclude :
  match _find_name t exclude with
  | Some w =>
      In w (findall (Plus is_lower_letter) t) /\
      w <> "" /\ all_chars is_lower_letter w = true /\ mem w exclude = false /\
      forall w', In w' (findall (Plus is_lower_letter) t) -> mem w' exclude = false ->
                 (String.length w' <= String.length w)%nat
  | None =>
      forall w', In w' (findall (Plus is_lower_letter) t) -> mem w' exclude = true
  end.
Proof.
  unfold _find_name.
  destruct (List.filter _ _) as [|w words] eqn:Hf.
  - intros w' Hw'. destruct (mem w' exclude) eqn:Hm; [done|].
    assert (In w' []) as []. rewrite <- Hf. apply filter_In. by rewrite Hm.
  - assert (forall x, In x (w :: words) ->
              In x (findall (Plus is_lower_letter) t) /\ mem x exclude = false) as Hin.
    { intros x Hx. rewrite <- Hf in Hx. apply filter_In in Hx as [? Hm].
      split; [done|]. by apply negb_true_iff in Hm. }
    destruct (Hin _ (max_len_in w words)) as [Hall Hm].
    pose proof (findall_plus_words _ _ _ _ _ Hall) as [Hchars Hne].
    repeat split; try done.
    intros w' Hw' Hm'. apply max_len_longest. rewrite <- Hf. apply filter_In.
    by rewrite Hm'.
Qed.

Lemma _find_name_longest_candidate_witness :
  _find_name "add 3 pears with sku apple" ["add"; "with"; "sku"] = Some "pears" /\
  In "apple" (findall (Plus is_lower_letter) "add 3 pears with sku apple") /\
  mem "apple" ["add"; "with"; "sku"] = false /\
  (String.length "apple" <= String.length "pears")%nat.
Proof.
  pose proof (_find_name_longest_candidate "add 3 pears with sku apple"
                ["add"; "with"; "sku"]) as H.
  assert (_find_name "add 3 pears with sku apple" ["add"; "with"; "sku"] = Some "pears")
    as Heq by (vm_compute; reflexivity).
  rewrite Heq in H. destruct H as (_ & _ & _ & _ & H).
  assert (In "apple" (findall (Plus is_lower_letter) "add 3 pears with sku apple")) as Hin.
  { vm_compute. right; right; right; right. by left. }
  split; [exact Heq|]. split; [exact Hin|]. split; [reflexivity|].
  apply (H "apple" Hin). reflexivity.
Defined.

End find_name.

(** * Properties of the commands *)

Section agent_command.
Local Open Scope string_scope.
Implicit Types (db : table) (k : string) (c : cells).

(** What [execute] does with an action whose numbers are not negative. *)
Lemma execute_add db now k n q p :
  1 <= q -> (0 <= p)%Q ->
  cli.execute now (Add k n q p) db =
    match db !! k with
    | Some _ => (Raise (ValueError (AlreadyExists k)), db)
    | None => if fits_integer q then (Ok (Added k n q p), <[k := Cells n q p now]> db)
              else (Raise OverflowError, db)
    end.
Proof.
  intros Hq Hp. unfold cli.execute, bind, ret.
  destruct (db !! k) as [c|] eqn:Hk.
  - by rewrite (add_item_present db now k n q p c Hk).
  - rewrite (add_item_absent db now k n q p Hk).
    destruct (fits_integer q); simpl; [|done].
    destruct (Z.ltb_spec q 0); [lia|].
    apply price_nonneg_true in Hp. by rewrite Hp.
Qed.

Lemma execute_subtract db now k q :
  cli.execute now (Subtract k q) db =
    match db !! k with
    | None => (Raise (ValueError (NotFound k)), db)
    | Some c =>
        if c_quantity c <? q
        then (Raise (ValueError (Store.cannot_subtract q (c_quantity c))), db)
        else if fits_integer (c_quantity c - q)
        then (Ok (NewQuantity k (c_quantity c - q)),
              <[k := Cells (c_name c) (c_quantity c - q) (c_price c) now]> db)
        else (Raise OverflowError, db)
    end%Z.
Proof.
  unfold cli.execute, bind, ret.
  destruct (db !! k) as [c|] eqn:Hk.
  - rewrite (subtract_quantity_present db now k q c Hk).
    destruct (c_quantity c <? q)%Z; [done|]. by destruct (fits_integer _).
  - by rewrite subtract_quantity_absent.
Qed.

Lemma execute_update db now k n q p :
  (n, q, p) <> (None, None, None) ->
  (forall v, q = Some v -> 0 <= v) -> (forall w, p = Some w -> (0 <= w)%Q) ->
  cli.execute now (Update k n q p) db =
    match db !! k with
    | None => (Raise (ValueError (NotFound k)), db)
    | Some c =>
        if match q with Some v => fits_integer v | None => true end
        then (Ok (Updated k), <[k := updated now n q p c]> db)
        else (Raise OverflowError, db)
    end.
Proof.
  intros Hsome Hq Hp. unfold cli.execute, bind, ret.
  destruct (db !! k) as [c|] eqn:Hk.
  - rewrite (update_item_present db now k n q p c Hk Hsome).
    assert (match q with Some v => (v <? 0)%Z | None => false end = false) as ->.
    { destruct q as [v|]; [|done]. specialize (Hq v eq_refl).
      destruct (Z.ltb_spec v 0); [lia|done]. }
    assert (match p with Some w => price_neg w | None => false end = false) as ->.
    { destruct p as [w|]; [|done]. by apply price_neg_false, Hp. }
    by destruct (match q with Some v => fits_integer v | None => true end).
  - by rewrite update_item_absent.
Qed.

Lemma execute_delete db now k :
  cli.execute now (Delete k) db =
    match db !! k with
    | None => (Raise (ValueError (NotFound k)), db)
    | Some _ => (Ok (Deleted k), delete k db)
    end.
Proof.
  unfold cli.execute, bind, ret.
  destruct (db !! k) as [c|] eqn:Hk.
  - by rewrite (delete_item_present db k c).
  - by rewrite delete_item_absent.
Qed.

(** [agent] on a command the parser accepts. *)
Lemma agent_parsed now command a :
  _rule_based_parse command = Ok a ->
  cli.agent now command = cli.execute now a.
Proof. intros Ha. unfold cli.agent. by rewrite Ha. Qed.

Lemma agent_unparsed now command m db :
  _rule_based_parse command = Raise (AgentParseError m) ->
  cli.agent now command db = (Ok (CouldNotParse m), db).
Proof. intros Ha. unfold cli.agent. by rewrite Ha. Qed.

(** The cases of [agent], with the ranges the parser guarantees. *)
Lemma agent_cases now command db :
  (exists m, _rule_based_parse command = Raise (AgentParseError m) /\
             cli.agent now command db = (Ok (CouldNotParse m), db))
  \/ (_rule_based_parse command = Raise (ValueError ExceedsDigitLimit) /\
      cli.agent now command db = (Raise (ValueError ExceedsDigitLimit), db))
  \/ exists a, _rule_based_parse command = Ok a /\
       cli.agent now command db = cli.execute now a db /\
       match a with
       | Add _ _ q p => 1 <= q /\ (0 <= p)%Q
       | Subtract _ q => 1 <= q
       | Update _ n q p =>
           (n, q, p) <> (None, None, None) /\
           (forall v, q = Some v -> 0 <= v) /\ (forall w, p = Some w -> (0 <= w)%Q)
       | Delete _ => True
       end.
Proof.
  destruct (_rule_based_parse command) as [a|e] eqn:Hp.
  - right; right. exists a. split; [done|].
    split; [by rewrite (agent_parsed now command a)|].
    pose proof (parse_ok_numbers command a Hp) as Hn.
    apply parse_ok in Hp as (g & _ & Hp).
    destruct (classify _) as [[]|]; try done.
    + by destruct Hp as (n & _ & ->).
    + by destruct Hp as (n & _ & ->).
    + destruct Hp as (q & _ & -> & Hsome). by destruct Hn.
    + by subst a.
  - destruct (parse_raises command e Hp) as [[m ->]| ->].
    + left. exists m. split; [done|]. by apply agent_unparsed.
    + right; left. split; [done|]. unfold cli.agent. by rewrite Hp.
Qed.

End agent_command.

Section agent_extras.
Local Open Scope string_scope.
Implicit Types (db : table) (k : string) (c : cells).

(** X17. With the rule-based parser, the [agent] command never trips a
    constraint of the table or a validation of the store and never lets a
    parse error escape. When it raises, the table is as it was, and the
    exception is the already-exists error for a stored sku, the
    not-found error for a sku that is not stored, the cannot-subtract
    error for a quantity above the stock, the [OverflowError] of a
    quantity that does not fit an INTEGER column, raised by the store on
    a parsed action, or the [ValueError] of a number of more than 4300
    digits. *)
Theorem agent_raises_only_refusals now command db e :
  fst (cli.agent now command db) = Raise e ->
  snd (cli.agent now command db) = db /\
  match e with
  | ValueError (AlreadyExists k) => is_Some (db !! k)
  | ValueError (NotFound k) => db !! k = None
  | ValueError (CannotSubtract q current) =>
      exists k c, db !! k = Some c /\ c_quantity c = current /\ current < q
  | ValueError ExceedsDigitLimit => True
  | OverflowError => exists a, _rule_based_parse command = Ok a
  | ValueError QuantityNonneg | ValueError PriceNonneg => False
  | IntegrityError _ => False
  | AgentParseError _ => False
  end.
Proof.
  destruct (agent_cases now command db)
    as [(m & _ & ->)|[[_ ->]|(a & Hparse & -> & Ha)]]; [done| |].
  { simpl. by intros [= <-]. }
  destruct a as [k n q p|k q|k n q p|k].
  - destruct Ha as [Hq Hp]. rewrite execute_add by done.
    destruct (db !! k) as [c|] eqn:Hk; simpl.
    + intros [= <-]. split; [done|]. by rewrite Hk.
    + destruct (fits_integer q); simpl; [done|]. intros [= <-]. eauto.
  - rewrite execute_subtract.
    destruct (db !! k) as [c|] eqn:Hk; simpl.
    + destruct (Z.ltb_spec (c_quantity c) q); simpl.
      * intros [= <-]. split; [done|]. unfold Store.cannot_subtract.
        destruct (_ && _); [|done]. eauto.
      * destruct (fits_integer _); simpl; [done|]. intros [= <-]. eauto.
    + by intros [= <-].
  - destruct Ha as (Hsome & Hq & Hp). rewrite execute_update by done.
    destruct (db !! k) as [c|] eqn:Hk; simpl.
    + destruct (match q with Some v => fits_integer v | None => true end); simpl; [done|].
      intros [= <-]. eauto.
    + by intros [= <-].
  - rewrite execute_delete.
    destruct (db !! k) as [c|] eqn:Hk; simpl; [done|].
    by intros [= <-].
Qed.

Lemma agent_raises_only_refusals_witness :
  fst (cli.agent "t1" "subtract 9 sku a1" apples)
  = Raise (ValueError (CannotSubtract 9 5)) /\
  snd (cli.agent "t1" "subtract 9 sku a1" apples) = apples /\
  exists k c, apples !! k = Some c /\ c_quantity c = 5 /\ 5 < 9.
Proof.
  split; [vm_compute; reflexivity|].
  apply (agent_raises_only_refusals "t1" "subtract 9 sku a1" apples
           (ValueError (CannotSubtract 9 5))).
  vm_compute; reflexivity.
Defined.

(** X18. What the [agent] command prints is what the store then holds.
    "Added" means the sku was new and its row now has the printed name,
    quantity and price; a printed new quantity is that of the row, is
    not negative and is strictly below the quantity before; "Updated"
    and "Deleted" mean the sku was in the store, and is updated at the
    time of the call, or gone; "Could not parse" means the parser raised
    and the table was not touched. *)
Theorem agent_reports_the_store now command db out :
  fst (cli.agent now command db) = Ok out ->
  match out with
  | Added k n q p =>
      db !! k = None /\ snd (cli.agent now command db) !! k = Some (Cells n q p now)
  | NewQuantity k new_q =>
      exists c, db !! k = Some c /\ 0 <= new_q < c_quantity c /\
        snd (cli.agent now command db) !! k
        = Some (Cells (c_name c) new_q (c_price c) now)
  | Updated k =>
      exists c c', db !! k = Some c /\
        snd (cli.agent now command db) !! k = Some c' /\ c_updated_at c' = now
  | Deleted k =>
      is_Some (db !! k) /\ snd (cli.agent now command db) !! k = None
  | CouldNotParse m =>
      _rule_based_parse command = Raise (AgentParseError m) /\
      snd (cli.agent now command db) = db
  end.
Proof.
  destruct (agent_cases now command db)
    as [(m & Hm & ->)|[[_ ->]|(a & _ & -> & Ha)]]; [|done|].
  { simpl. by intros [= <-]. }
  destruct a as [k n q p|k q|k n q p|k].
  - destruct Ha as [Hq Hp]. rewrite execute_add by done.
    destruct (db !! k) as [c|] eqn:Hk; simpl; [done|].
    destruct (fits_integer q); simpl; [|done].
    intros [= <-]. split; [done|]. apply lookup_insert_eq.
  - rewrite execute_subtract.
    destruct (db !! k) as [c|] eqn:Hk; simpl; [|done].
    destruct (Z.ltb_spec (c_quantity c) q); simpl; [done|].
    destruct (fits_integer _); simpl; [|done].
    intros [= <-]. exists c. split; [done|]. split; [lia|]. apply lookup_insert_eq.
  - destruct Ha as (Hsome & Hq & Hp). rewrite execute_update by done.
    destruct (db !! k) as [c|] eqn:Hk; simpl; [|done].
    destruct (match q with Some v => fits_integer v | None => true end); simpl; [|done].
    intros [= <-]. exists c, (updated now n q p c).
    split; [done|]. split; [apply lookup_insert_eq|done].
  - rewrite execute_delete.
    destruct (db !! k) as [c|] eqn:Hk; simpl; [|done].
    intros [= <-]. split; [done|]. apply lookup_delete_eq.
Qed.

Lemma agent_reports_the_store_witness :
  fst (cli.agent "t1" "remove 2 code A1 please" apples) = Ok (Deleted "A1") /\
  is_Some (apples !! "A1") /\
  snd (cli.agent "t1" "remove 2 code A1 please" apples) !! "A1" = None.
Proof.
  split; [vm_compute; reflexivity|].
  apply (agent_reports_the_store "t1" "remove 2 code A1 please" apples (Deleted "A1")).
  vm_compute; reflexivity.
Defined.

End agent_extras.

Section remote_parse.
Local Open Scope string_scope.

Lemma action_dict_type a : has_action_type (action_dict a) = true.
Proof. by destruct a. Qed.

(** X19. [Agent.parse] never lets a failure of the remote strategy
    escape. Whatever the client replies and whatever [json.loads] makes
    of it, a returned dictionary has a "type" that is one of add,
    subtract, update and delete; an exception is the one
    [_rule_based_parse] raises on the same text, which is an
    [AgentParseError] or the [ValueError] of [int] on more than 4300
    digits; and without a client the result is the one of
    [_rule_based_parse]. *)
Theorem parse_falls_back loads self text :
  (forall data, Agent.parse loads self text = Ok data -> has_action_type data = true) /\
  (forall e, Agent.parse loads self text = Raise e ->
     _rule_based_parse text = Raise e /\
     ((exists m, e = AgentParseError m) \/ e = ValueError ExceedsDigitLimit)) /\
  (Agent._client self = None ->
     Agent.parse loads self text =
       match _rule_based_parse text with
       | Ok a => Ok (action_dict a)
       | Raise e => Raise e
       end).
Proof.
  assert (forall data,
            match _rule_based_parse text with
            | Ok a => Ok (action_dict a)
            | Raise e => Raise e
            end = Ok data -> has_action_type data = true) as Hok.
  { intros data. destruct (_rule_based_parse text); [|done].
    intros [= <-]. apply action_dict_type. }
  assert (forall e,
            match _rule_based_parse text with
            | Ok a => Ok (action_dict a)
            | Raise e => Raise e
            end = Raise e ->
            _rule_based_parse text = Raise e /\
            ((exists m, e = AgentParseError m) \/ e = ValueError ExceedsDigitLimit))
    as Hraise.
  { intros e. destruct (_rule_based_parse text) as [a|e'] eqn:Hp; [done|].
    intros [= <-]. split; [done|]. by eapply parse_raises. }
  unfold Agent.parse. split; [|split].
  - intros data. destruct (Agent._client self) as [generate|]; [|apply Hok].
    destruct (generate _) as [reply|]; [|apply Hok].
    destruct (loads _) as [d|]; [|apply Hok].
    destruct (has_action_type d) eqn:Hd; [|apply Hok]. by intros [= <-].
  - intros e. destruct (Agent._client self) as [generate|]; [|apply Hraise].
    destruct (generate _) as [reply|]; [|apply Hraise].
    destruct (loads _) as [d|]; [|apply Hraise].
    destruct (has_action_type d); [done|apply Hraise].
  - by intros ->.
Qed.

Lemma parse_falls_back_witness :
  Agent.parse (fun _ => Some (JList [])) (Agent.Build_t (Some (fun _ => Some "```[]```")))
    "update sku B300"
  = Raise (AgentParseError NothingToUpdate) /\
  _rule_based_parse "update sku B300" = Raise (AgentParseError NothingToUpdate) /\
  ((exists m, AgentParseError NothingToUpdate = AgentParseError m) \/
   AgentParseError NothingToUpdate = ValueError ExceedsDigitLimit).
Proof.
  split; [vm_compute; reflexivity|].
  apply (proj1 (proj2 (parse_falls_back (fun _ => Some (JList []))
                         (Agent.Build_t (Some (fun _ => Some "```[]```")))
                         "update sku B300"))).
  vm_compute; reflexivity.
Defined.

End remote_parse.

Section list_command.
Local Open Scope string_scope.
#[local] Existing Instance Store.sku_le_dec.
Implicit Types (db : table) (k : string) (c : cells).

Lemma subscript_all_some (l : list item) : subscript_all (Some <$> l) = Some l.
Proof.
  induction l as [|r l IH]; [done|].
  change (Some <$> r :: l) with (Some r :: (Some <$> l)). cbn [subscript_all].
  by rewrite IH.
Qed.

Lemma list_all db :
  cli.list_items None db =
    (Ok (match (fun kc => as_item kc.1 kc.2) <$> merge_sort Store.sku_le (map_to_list db) with
         | [] => NoItemsFound
         | l => Table l
         end), db).
Proof.
  unfold cli.list_items, bind, ret. rewrite list_items_eq.
  destruct (_ <$> merge_sort _ _) as [|r l] eqn:Hl; [done|].
  change (Some <$> r :: l) with (Some r :: (Some <$> l)). cbn [subscript_all].
  by rewrite subscript_all_some.
Qed.

(** X20. The [list] command with a sku shows the row of that sku when it
    is in the store; when it is not, the command ends in a TypeError and
    does not print "No items found.". Without a sku, or with the empty
    one, it prints "No items found." for an empty store and otherwise
    shows what [list_items] returns. The table is never changed. *)
Theorem list_command_outcomes db :
  (forall k c, k <> "" -> db !! k = Some c ->
     cli.list_items (Some k) db = (Ok (Table [as_item k c]), db)) /\
  (forall k, k <> "" -> db !! k = None ->
     cli.list_items (Some k) db = (Ok NoneNotSubscriptable, db)) /\
  cli.list_items (Some "") db = cli.list_items None db /\
  (db = ∅ -> cli.list_items None db = (Ok NoItemsFound, db)) /\
  (db <> ∅ ->
     exists l, Store.list_items db = (Ok l, db) /\ l <> [] /\
               cli.list_items None db = (Ok (Table l), db)).
Proof.
  split; [|split; [|split; [|split]]].
  - intros k c Hne Hk. unfold cli.list_items, bind, ret.
    destruct k; [done|]. simpl. by rewrite get_item_lookup, Hk.
  - intros k Hne Hk. unfold cli.list_items, bind, ret.
    destruct k; [done|]. simpl. by rewrite get_item_lookup, Hk.
  - reflexivity.
  - intros ->. rewrite list_all. by rewrite map_to_list_empty.
  - intros Hne. rewrite list_all, list_items_eq.
    destruct (_ <$> merge_sort _ _) as [|r l] eqn:Hl.
    + exfalso. apply Hne. apply map_size_empty_iff.
      rewrite <- length_map_to_list, <- (merge_sort_Permutation Store.sku_le).
      apply fmap_nil_inv in Hl. by rewrite Hl.
    + by exists (r :: l).
Qed.

Lemma list_command_outcomes_witness :
  ("Z9" <> "" /\ apples !! "Z9" = None /\
   cli.list_items (Some "Z9") apples = (Ok NoneNotSubscriptable, apples)) /\
  ("A1" <> "" /\ apples !! "A1" = Some (Cells "Apples" 5 (3 # 2) "t0") /\
   cli.list_items (Some "A1") apples
   = (Ok (Table [as_item "A1" (Cells "Apples" 5 (3 # 2) "t0")]), apples)).
Proof.
  split.
  - split; [discriminate|]. split; [reflexivity|].
    apply (proj1 (proj2 (list_command_outcomes apples)) "Z9");
      [discriminate|reflexivity].
  - split; [discriminate|]. split; [reflexivity|].
    apply (proj1 (list_command_outcomes apples) "A1" (Cells "Apples" 5 (3 # 2) "t0"));
      [discriminate|reflexivity].
Defined.

End list_command.

Section import_command.
Local Open Scope string_scope.
Implicit Types (db : table) (k : string) (c : cells).

Lemma add_or_update_invalid db now now' k nm q p :
  q < 0 \/ (p < 0)%Q ->
  exists e, Store.add_or_update now now' k nm q p db = (Raise e, db).
Proof.
  intros Hbad. rewrite add_or_update_cases.
  destruct (db !! k) as [c|] eqn:Hk.
  - rewrite (update_item_present db now' k (Some nm) (Some q) (Some p) c Hk) by done.
    destruct (Z.ltb_spec q 0) as [Hq|Hq]; [by eauto|].
    destruct Hbad as [?|Hp]; [lia|]. apply price_neg_true in Hp. rewrite Hp. by eauto.
  - destruct (add_item_invalid db now k nm q p Hk Hbad) as (e & _ & ->). by eauto.
Qed.

Lemma add_or_update_ok_state db now now' k nm q p u db1 :
  Store.add_or_update now now' k nm q p db = (Ok u, db1) ->
  exists ts, db1 = <[k := Cells nm q p ts]> db.
Proof.
  rewrite add_or_update_cases.
  destruct (db !! k) as [c|] eqn:Hk.
  - rewrite (update_item_present db now' k (Some nm) (Some q) (Some p) c Hk) by done.
    destruct (q <? 0)%Z; [done|]. destruct (price_neg p); [done|].
    destruct (fits_integer q); [|done].
    intros [= _ <-]. by exists now'.
  - destruct (add_item_shape db now k nm q p) as [[-> _]|(e & -> & He)]; [|done].
    intros [= _ <-]. by exists now.
Qed.

Lemma import_rows_app count rows1 rows2 db n db1 :
  cli.import_rows count rows1 db = (Imported n, db1) ->
  cli.import_rows count (rows1 ++ rows2) db = cli.import_rows n rows2 db1 /\
  n = (count + length rows1)%nat.
Proof.
  revert count db. induction rows1 as [|[[now now'] r] rows1 IH]; intros count db; simpl.
  - intros [= <- <-]. split; [done|lia].
  - destruct r as [[[[k nm] q] p]|]; [|done].
    destruct (Store.add_or_update now now' k nm q p db) as [[u|e] db2]; [|done].
    intros H. apply IH in H as [-> ->]. split; [done|lia].
Qed.

(** X21. [import_csv] does not undo the rows it has imported when a later
    row fails. If the rows before a row all import, and that row has
    numbers that do not convert or a quantity or price below zero, the
    import stops there with an exception: the count then stands at the
    number of rows before it, and the table is the one those rows
    left, whatever follows in the file. *)
Theorem import_stops_at_bad_row rows1 now now' r rows2 db n db1 :
  cli.import_csv rows1 db = (Imported n, db1) ->
  match r with
  | None => True
  | Some (_, _, q, p) => q < 0 \/ (p < 0)%Q
  end ->
  exists e,
    cli.import_csv (rows1 ++ (now, now', r) :: rows2) db = (Stopped n e, db1) /\
    n = length rows1 /\
    (e = None <-> r = None).
Proof.
  unfold cli.import_csv. intros H Hbad.
  apply (import_rows_app 0 rows1 ((now, now', r) :: rows2)) in H as [-> ->].
  destruct r as [[[[k nm] q] p]|]; simpl.
  - destruct (add_or_update_invalid db1 now now' k nm q p Hbad) as [e ->].
    exists (Some e). by repeat split.
  - by exists None.
Qed.

Lemma import_stops_at_bad_row_witness :
  cli.import_csv [("t1", "t2", Some ("B2", "Pears", 3, 2%Q))] apples
  = (Imported 1, <["B2" := Cells "Pears" 3 2 "t1"]> apples) /\
  (-4 < 0 \/ (1 < 0)%Q) /\
  exists e,
    cli.import_csv ([("t1", "t2", Some ("B2", "Pears", 3, 2%Q))]
                    ++ ("t3", "t4", Some ("A1", "Apples", -4, 1%Q))
                    :: [("t5", "t6", Some ("C3", "Plums", 1, 1%Q))]) apples
    = (Stopped 1 e, <["B2" := Cells "Pears" 3 2 "t1"]> apples) /\
    1%nat = length [("t1", "t2", Some ("B2", "Pears", 3, 2%Q))] /\
    (e = None <-> Some ("A1", "Apples", -4, 1%Q) = None).
Proof.
  assert (cli.import_csv [("t1", "t2", Some ("B2", "Pears", 3, 2%Q))] apples
          = (Imported 1, <["B2" := Cells "Pears" 3 2 "t1"]> apples)) as H
    by (vm_compute; reflexivity).
  split; [exact H|]. split; [left; lia|].
  apply (import_stops_at_bad_row _ "t3" "t4" (Some ("A1", "Apples", -4, 1%Q)) _ _ _ _ H).
  left. lia.
Defined.

Lemma import_rows_imported count rows db n db' :
  cli.import_rows count rows db = (Imported n, db') ->
  n = (count + length rows)%nat /\
  forall k,
    match last_row_for k rows with
    | Some (nm, q, p) => exists ts, db' !! k = Some (Cells nm q p ts)
    | None => db' !! k = db !! k
    end.
Proof.
  revert count db. induction rows as [|[[now now'] r] rows IH]; intros count db; simpl.
  - intros [= <- <-]. split; [lia|done].
  - destruct r as [[[[k' nm] q] p]|]; [|done].
    destruct (Store.add_or_update now now' k' nm q p db) as [[u|e] db1] eqn:Hrow; [|done].
    apply add_or_update_ok_state in Hrow as [ts ->].
    intros H. apply IH in H as [-> Hlast]. split; [lia|].
    intros k. specialize (Hlast k).
    destruct (last_row_for k rows) as [[[nm' q'] p']|]; [done|].
    rewrite Hlast. destruct (String.eqb_spec k' k) as [->|Hne].
    + exists ts. apply lookup_insert_eq.
    + by apply lookup_insert_ne.
Qed.

(** X22. An [import_csv] that runs to its end reports as many rows as the
    file has, and the last row of a sku wins: afterwards the row of each
    sku of the file has the name, quantity and price of the last row of
    the file for it, and the rows of all other skus are as before. *)
Theorem import_last_row_wins rows db n db' :
  cli.import_csv rows db = (Imported n, db') ->
  n = length rows /\
  forall k,
    match last_row_for k rows with
    | Some (nm, q, p) => exists ts, db' !! k = Some (Cells nm q p ts)
    | None => db' !! k = db !! k
    end.
Proof. intros H. by apply import_rows_imported in H. Qed.

Lemma import_last_row_wins_witness :
  cli.import_csv [("t1", "t2", Some ("A1", "Red apples", 7, 2%Q));
                  ("t3", "t4", Some ("B2", "Pears", 3, 2%Q));
                  ("t5", "t6", Some ("A1", "Green apples", 1, 3%Q))] apples
  = (Imported 3, <["A1" := Cells "Green apples" 1 3 "t6"]>
                   (<["B2" := Cells "Pears" 3 2 "t3"]> apples)) /\
  exists ts,
    (<["A1" := Cells "Green apples" 1 3 "t6"]>
       (<["B2" := Cells "Pears" 3 2 "t3"]> apples)) !! "A1"
    = Some (Cells "Green apples" 1 3 ts).
Proof.
  assert (cli.import_csv [("t1", "t2", Some ("A1", "Red apples", 7, 2%Q));
                          ("t3", "t4", Some ("B2", "Pears", 3, 2%Q));
                          ("t5", "t6", Some ("A1", "Green apples", 1, 3%Q))] apples
          = (Imported 3, <["A1" := Cells "Green apples" 1 3 "t6"]>
                           (<["B2" := Cells "Pears" 3 2 "t3"]> apples))) as H
    by (vm_compute; reflexivity).
  split; [exact H|].
  exact (proj2 (import_last_row_wins _ _ _ _ H) "A1").
Defined.

End import_command.

Section export_import.
Local Open Scope string_scope.
#[local] Existing Instance Store.sku_le_dec.
Implicit Types (db : table) (k : string) (c : cells).

Lemma import_rows_valid count (rows : list (timestamp * timestamp * csv_row)) db :
  (forall now now' r, In (now, now', r) rows ->
     exists k nm q p, r = Some (k, nm, q, p) /\ 0 <= q < 2 ^ 63 /\ (0 <= p)%Q) ->
  exists db', cli.import_rows count rows db = (Imported (count + length rows), db').
Proof.
  revert count db. induction rows as [|[[now now'] r] rows IH]; intros count db Hv.
  - exists db. simpl. by rewrite Nat.add_0_r.
  - destruct (Hv now now' r) as (k & nm & q & p & -> & Hq & Hp); [by left|].
    assert (exists db1, Store.add_or_update now now' k nm q p db = (Ok tt, db1))
      as [db1 Hrow].
    { rewrite add_or_update_cases. destruct (db !! k) as [c|] eqn:Hk.
      - rewrite (update_item_supplied db now' k (Some nm) (Some q) (Some p) c Hk);
          [by eauto|by intros ? [= <-]|by intros ? [= <-]|done].
      - rewrite (add_item_fresh db now k nm q p Hk Hq Hp). by eauto. }
    cbn [cli.import_rows]. rewrite Hrow.
    destruct (IH (S count) db1) as [db' ->].
    { intros t t' r0 Hr. apply (Hv t t' r0). by right. }
    exists db'. do 2 f_equal. simpl. lia.
Qed.

Lemma last_row_for_Some k rows nm q p :
  last_row_for k rows = Some (nm, q, p) ->
  exists now now', In (now, now', Some (k, nm, q, p)) rows.
Proof.
  induction rows as [|[[now now'] r] rows IH]; simpl; [done|].
  destruct (last_row_for k rows) as [x|].
  - intros [= ->]. destruct IH as (t & t' & Hin); [done|]. exists t, t'. by right.
  - destruct r as [[[[k' nm'] q'] p']|]; [|done].
    destruct (String.eqb_spec k' k) as [->|]; [|done].
    intros [= -> -> ->]. exists now, now'. by left.
Qed.

Lemma last_row_for_None k rows now now' nm q p :
  last_row_for k rows = None -> ~ In (now, now', Some (k, nm, q, p)) rows.
Proof.
  induction rows as [|[[t t'] r] rows IH]; simpl; [by intros _ []|].
  destruct (last_row_for k rows) as [x|]; [done|].
  intros Hr [Heq|Hin]; [|by apply IH].
  simplify_eq. by rewrite String.eqb_refl in Hr.
Qed.

Lemma export_csv_rows db :
  cli.export_csv db =
    (Ok (match (fun kc => as_item kc.1 kc.2) <$> merge_sort Store.sku_le (map_to_list db) with
         | [] => None
         | l => Some ((fun r => (sku r, name r, quantity r, price r)) <$> l)
         end), db).
Proof.
  unfold cli.export_csv, bind, ret. rewrite list_items_eq.
  by destruct (_ <$> merge_sort _ _).
Qed.

Lemma exported_row db k nm q p :
  (k, nm, q, p) ∈ ((fun r => (sku r, name r, quantity r, price r)) <$>
                   ((fun kc => as_item kc.1 kc.2) <$>
                    merge_sort Store.sku_le (map_to_list db))) <->
  exists c, db !! k = Some c /\ contents c = (nm, q, p).
Proof.
  rewrite <- list_fmap_compose, list_elem_of_fmap. split.
  - intros ([k' c] & Heq & Hin). rewrite merge_sort_Permutation in Hin.
    apply elem_of_map_to_list in Hin. simpl in Heq. simplify_eq. by exists c.
  - intros (c & Hk & Hc). exists (k, c). split.
    + unfold contents in Hc. simpl. by simplify_eq.
    + rewrite merge_sort_Permutation. by apply elem_of_map_to_list.
Qed.

(** X23. What [export_csv] writes for a store that is not empty is one
    row per stored sku, and reading these rows back with [import_csv]
    into an empty store, their numbers converted unchanged, runs to its
    end, counts as many rows as the store had and gives every sku the
    name, quantity and price it had; only updated_at differs. *)
Theorem export_then_import db rows (stamped : list (timestamp * timestamp * csv_row)) :
  table_ok db ->
  cli.export_csv db = (Ok (Some rows), db) ->
  stamped.*2 = Some <$> rows ->
  exists db',
    cli.import_csv stamped ∅ = (Imported (size db), db') /\
    forall k, contents <$> db' !! k = contents <$> db !! k.
Proof.
  intros Hok Hexp Hst. rewrite export_csv_rows in Hexp.
  assert (rows = (fun r => (sku r, name r, quantity r, price r)) <$>
                 ((fun kc => as_item kc.1 kc.2) <$>
                  merge_sort Store.sku_le (map_to_list db))) as Hrows.
  { destruct (_ <$> merge_sort _ _); by simplify_eq. }
  clear Hexp.
  assert (forall now now' r, In (now, now', r) stamped ->
            exists k nm q p, r = Some (k, nm, q, p) /\
              exists c, db !! k = Some c /\ contents c = (nm, q, p)) as Hin.
  { intros now now' r Hr.
    assert (r ∈ stamped.*2) as Hr2.
    { apply list_elem_of_fmap. exists (now, now', r). split; [done|].
      by apply list_elem_of_In. }
    rewrite Hst in Hr2. apply list_elem_of_fmap in Hr2 as ([[[k nm] q] p] & -> & Hrow).
    exists k, nm, q, p. split; [done|]. rewrite Hrows in Hrow.
    by apply exported_row. }
  assert (length stamped = size db) as Hlen.
  { rewrite <- (length_fmap snd stamped), Hst, length_fmap, Hrows, !length_fmap.
    rewrite merge_sort_Permutation. apply length_map_to_list. }
  destruct (import_rows_valid 0 stamped ∅) as [db' Himp].
  { intros now now' r Hr.
    destruct (Hin now now' r Hr) as (k & nm & q & p & -> & c & Hk & Hc).
    exists k, nm, q, p. split; [done|]. destruct (Hok k c Hk) as [Hq Hp].
    unfold contents in Hc. by simplify_eq. }
  exists db'. unfold cli.import_csv. rewrite Himp, Hlen. split; [done|].
  apply import_rows_imported in Himp as [_ Hlast].
  intros k. specialize (Hlast k).
  destruct (last_row_for k stamped) as [[[nm q] p]|] eqn:Hl.
  - destruct Hlast as [ts ->].
    apply last_row_for_Some in Hl as (now & now' & Hr).
    destruct (Hin _ _ _ Hr) as (k0 & nm0 & q0 & p0 & [= <- <- <- <-] & c & -> & Hc).
    simpl. by rewrite Hc.
  - rewrite Hlast, lookup_empty. simpl.
    destruct (db !! k) as [c|] eqn:Hk; [|done]. exfalso.
    assert ((k, c_name c, c_quantity c, c_price c) ∈ rows) as Hrow.
    { rewrite Hrows. apply exported_row. by exists c. }
    assert (Some (k, c_name c, c_quantity c, c_price c) ∈ stamped.*2) as Hs.
    { rewrite Hst. apply list_elem_of_fmap. by eexists. }
    apply list_elem_of_fmap in Hs as ([[now now'] r] & Hr & Hs). simpl in Hr. subst r.
    apply list_elem_of_In in Hs.
    by apply (last_row_for_None k stamped now now' _ _ _ Hl) in Hs.
Qed.

Lemma export_then_import_witness :
  table_ok apples /\
  cli.export_csv apples = (Ok (Some [("A1", "Apples", 5, 3 # 2)]), apples) /\
  [("t8", "t9", Some ("A1", "Apples", 5, 3 # 2))].*2
  = Some <$> [("A1", "Apples", 5, 3 # 2)] /\
  exists db',
    cli.import_csv [("t8", "t9", Some ("A1", "Apples", 5, 3 # 2))] ∅
    = (Imported (size apples), db') /\
    forall k, contents <$> db' !! k = contents <$> apples !! k.
Proof.
  assert (table_ok apples) as Hok.
  { intros k c Hk. unfold apples in Hk.
    apply lookup_singleton_Some in Hk as [_ <-]. simpl.
    split; [lia | unfold Qle; simpl; lia]. }
  split; [exact Hok|]. split; [vm_compute; reflexivity|]. split; [reflexivity|].
  apply (export_then_import apples [("A1", "Apples", 5, 3 # 2)]
           [("t8", "t9", Some ("A1", "Apples", 5, 3 # 2))] Hok).
  - vm_compute; reflexivity.
  - reflexivity.
Defined.

End export_import.

(** * The limits on the size of the numbers *)

Section store_range.
Implicit Types (db : table) (k : string) (c : cells).

(** X24. In every table reachable from the empty store, whatever calls
    were made and whether they returned or raised, every stored
    quantity fits the INTEGER column: it is below 2^63. *)
Theorem history_quantities_fit (ops : list operation) k c :
  history ops !! k = Some c -> c_quantity c < 2 ^ 63.
Proof.
  assert (forall db, table_ok db -> table_ok (fold_left perform ops db)) as H.
  { induction ops as [|o ops IH]; intros db Hdb; simpl; [done|].
    apply IH. by apply perform_table_ok. }
  intros Hk. destruct (H ∅ table_ok_empty k c Hk) as [Hq _]. lia.
Qed.

Lemma history_quantities_fit_witness :
  history [AddItem "t0" "A1" "Apples" (2 ^ 63 - 1) 1;
           AddItem "t1" "B2" "Pears" (2 ^ 63) 1;
           SubtractQuantity "t2" "A1" (-1)] !! "A1"%string
  = Some (Cells "Apples" (2 ^ 63 - 1) 1 "t0") /\
  c_quantity (Cells "Apples" (2 ^ 63 - 1) 1 "t0") < 2 ^ 63.
Proof.
  split; [vm_compute; reflexivity|].
  apply (history_quantities_fit
           [AddItem "t0" "A1" "Apples" (2 ^ 63 - 1) 1;
            AddItem "t1" "B2" "Pears" (2 ^ 63) 1;
            SubtractQuantity "t2" "A1" (-1)] "A1"%string).
  vm_compute; reflexivity.
Defined.

End store_range.

Section digit_limit_lemmas.
Local Open Scope string_scope.
Local Open Scope nat_scope.
















End digit_limit_lemmas.

Section digit_limit.
Local Open Scope string_scope.



End digit_limit.

Section printable_lemmas.
Local Open Scope string_scope.

Lemma digit_value_range c : is_digit c = true -> 0 <= digit_value c <= 9.
Proof.
  unfold is_digit, between, digit_value.
  intros [Hlo Hhi]%andb_prop. apply Nat.leb_le in Hlo, Hhi. lia.
Qed.

Lemma int_from_bound acc s :
  0 <= acc -> all_chars is_digit s = true ->
  int_from acc s < (acc + 1) * 10 ^ Z.of_nat (String.length s).
Proof.
  revert acc. induction s as [|c s IH]; intros acc Hacc Hs.
  - simpl. lia.
  - simpl in Hs. apply andb_prop in Hs as [Hc Hs].
    apply digit_value_range in Hc.
    cbn [int_from String.length]. rewrite Nat2Z.inj_succ, Z.pow_succ_r by lia.
    specialize (IH (10 * acc + digit_value c) ltac:(lia) Hs).
    assert (0 < 10 ^ Z.of_nat (String.length s)) by (apply Z.pow_pos_nonneg; lia).
    nia.
Qed.

(** What [int] returns can be formatted. *)
Lemma int_printable s n :
  all_chars is_digit s = true -> int s = Ok n -> printable n = true.
Proof.
  intros Hs. unfold int.
  destruct (Nat.ltb_spec 4300 (String.length s)) as [|Hlen]; [done|].
  intros [= <-]. unfold printable, digit_limit. apply Z.ltb_lt.
  pose proof (int_value_nonneg s Hs) as Hnn.
  pose proof (int_from_bound 0 s ltac:(lia) Hs) as Hlt.
  rewrite Z.abs_eq by done. unfold int_value.
  apply Z.lt_le_trans with (10 ^ Z.of_nat (String.length s)); [lia|].
  apply Z.pow_le_mono_r; lia.
Qed.

Lemma _find_int_printable t n : _find_int t = Ok (Some n) -> printable n = true.
Proof.
  unfold _find_int, int_of_group.
  destruct (group1 _) as [g|] eqn:Hg; [|done].
  destruct (int g) as [m|] eqn:Hm; simpl; [|done].
  intros [= <-]. eapply int_printable; [|done]. by eapply _find_int_digits.
Qed.

Lemma parse_subtract_printable text k q :
  _rule_based_parse text = Ok (Subtract k q) -> printable q = true.
Proof.
  intros (g & _ & Ha)%parse_ok.
  destruct (classify _) as [[]|]; try done.
  - by destruct Ha as (n & _ & Ha).
  - destruct Ha as (n & Hn & [= _ ->]). unfold or_value.
    destruct n as [v|]; [|by apply printable_integer].
    destruct (truthy v); [by eapply _find_int_printable|by apply printable_integer].
  - by destruct Ha as (q' & _ & Ha & _).
Qed.

End printable_lemmas.

Section agent_range.
Local Open Scope string_scope.
Implicit Types (db : table) (k : string) (c : cells).

(** X26. On a table that satisfies [SCHEMA], the [agent] command with
    the rule-based parser raises the [ValueError] of a number with too
    many digits only when the parser raises it, on a number of more than
    4300 digits in the command, and raises [OverflowError] only for an
    add or an update whose quantity is 2^63 or more: a subtract never
    overflows, and the message of its cannot-subtract error can always
    be formatted. *)
Theorem agent_refusals_on_schema now command db e :
  table_ok db ->
  fst (cli.agent now command db) = Raise e ->
  match e with
  | ValueError ExceedsDigitLimit => _rule_based_parse command = Raise e
  | OverflowError =>
      exists a, _rule_based_parse command = Ok a /\
        match a with
        | Add _ _ q _ => 2 ^ 63 <= q
        | Update _ _ (Some q) _ => 2 ^ 63 <= q
        | _ => False
        end
  | _ => True
  end.
Proof.
  intros Hok.
  destruct (agent_cases now command db)
    as [(m & _ & ->)|[[Hparse ->]|(a & Hparse & -> & Ha)]]; [done| |].
  { simpl. by intros [= <-]. }
  destruct a as [k n q p|k q|k n q p|k].
  - destruct Ha as [Hq Hp]. rewrite execute_add by done.
    destruct (db !! k) as [c|] eqn:Hk; simpl; [by intros [= <-]|].
    destruct (fits_integer q) eqn:Hfit; simpl; [done|]. intros [= <-].
    exists (Add k n q p). split; [done|].
    apply fits_integer_false in Hfit. lia.
  - rewrite execute_subtract.
    destruct (db !! k) as [c|] eqn:Hk; simpl; [|by intros [= <-]].
    destruct (Hok k c Hk) as [Hc _].
    destruct (Z.ltb_spec (c_quantity c) q); simpl.
    + intros [= <-]. rewrite cannot_subtract_printable; [done| |].
      * by eapply parse_subtract_printable.
      * apply printable_integer. lia.
    + rewrite (proj2 (fits_integer_true (c_quantity c - q))) by lia. done.
  - destruct Ha as (Hsome & Hq & Hp). rewrite execute_update by done.
    destruct (db !! k) as [c|] eqn:Hk; simpl; [|by intros [= <-]].
    destruct q as [v|]; simpl; [|done].
    destruct (fits_integer v) eqn:Hfit; simpl; [done|]. intros [= <-].
    exists (Update k n (Some v) p). split; [done|].
    apply fits_integer_false in Hfit. specialize (Hq v eq_refl). lia.
  - rewrite execute_delete.
    destruct (db !! k) as [c|] eqn:Hk; simpl; [done|]. by intros [= <-].
Qed.

Lemma agent_refusals_on_schema_witness :
  table_ok apples /\
  fst (cli.agent "t1" "update sku a1 qty 9223372036854775808" apples)
  = Raise OverflowError /\
  exists a,
    _rule_based_parse "update sku a1 qty 9223372036854775808" = Ok a /\
    match a with
    | Add _ _ q _ => 2 ^ 63 <= q
    | Update _ _ (Some q) _ => 2 ^ 63 <= q
    | _ => False
    end.
Proof.
  assert (table_ok apples) as Hok.
  { intros k c Hk. unfold apples in Hk.
    apply lookup_singleton_Some in Hk as [_ <-]. simpl.
    split; [lia | unfold Qle; simpl; lia]. }
  split; [exact Hok|]. split; [vm_compute; reflexivity|].
  apply (agent_refusals_on_schema "t1" "update sku a1 qty 9223372036854775808"
           apples OverflowError Hok).
  vm_compute; reflexivity.
Defined.

End agent_range.
